(** * Period arithmetic: a shallow embedding of [period/arithmetic.go] and of
    the 64-bit working representation ([period64], [p64Of], [toPeriod],
    [normalise64] and the fraction reductions).

    Go's fixed-width integers are integers of [Z] with the two's-complement
    wrap-around written out; Go's [/] and [%] truncate towards zero and are
    [Z.quot] and [Z.rem]. *)

From Stdlib Require Import ZArith List String Bool Lia.
Import ListNotations.
Local Open Scope Z_scope.

(** ** Fixed-width integers *)

Module GoInt.

Definition wrap (bits x : Z) : Z :=
  (x + 2 ^ (bits - 1)) mod 2 ^ bits - 2 ^ (bits - 1).

Definition int8 (x : Z) : Z := wrap 8 x.
Definition int16 (x : Z) : Z := wrap 16 x.
Definition int64 (x : Z) : Z := wrap 64 x.

Definition MaxInt16 : Z := 32767.
Definition MinInt16 : Z := -32768.
Definition MaxInt64 : Z := 9223372036854775807.
Definition MinInt64 : Z := -9223372036854775808.

Definition in8 (x : Z) : Prop := -128 <= x <= 127.
Definition in16 (x : Z) : Prop := MinInt16 <= x <= MaxInt16.
Definition in64 (x : Z) : Prop := MinInt64 <= x <= MaxInt64.

(** int64 arithmetic as Go performs it. *)
Definition add64 (x y : Z) : Z := int64 (x + y).
Definition sub64 (x y : Z) : Z := int64 (x - y).
Definition mul64 (x y : Z) : Z := int64 (x * y).
Definition neg64 (x : Z) : Z := int64 (- x).
Definition quot64 (x y : Z) : Z := int64 (Z.quot x y).
Definition rem64 (x y : Z) : Z := Z.rem x y.

(** int16 and int8 arithmetic. *)
Definition add16 (x y : Z) : Z := int16 (x + y).
Definition neg8 (x : Z) : Z := int8 (- x).

End GoInt.
Import GoInt.

(** ** Data model *)

(** The designator names the field the fraction is attached to; the zero
    value of the type is [NoFraction]. *)
Inductive designator : Type :=
  | NoFraction | Year | Month | Day | Hour | Minute | Second.

Definition designator_eqb (a b : designator) : bool :=
  match a, b with
  | NoFraction, NoFraction | Year, Year | Month, Month | Day, Day
  | Hour, Hour | Minute, Minute | Second, Second => true
  | _, _ => false
  end.

(** The public value: six int16 fields, an int8 fraction and its designator. *)
Record Period : Type := mkPeriod {
  years : Z; months : Z; days : Z;
  hours : Z; minutes : Z; seconds : Z;
  fraction : Z;
  fpart : designator
}.

(** [Period{}], the zero value. *)
Definition zeroPeriod : Period := mkPeriod 0 0 0 0 0 0 0 NoFraction.

(** The working value used for stages in arithmetic. *)
Record period64 : Type := mkPeriod64 {
  years64 : Z; months64 : Z; days64 : Z;
  hours64 : Z; minutes64 : Z; seconds64 : Z;
  fraction64 : Z;
  fpart64 : designator;
  neg : bool;
  input : string
}.

Definition set_months (p : period64) (v : Z) : period64 :=
  mkPeriod64 (years64 p) v (days64 p) (hours64 p) (minutes64 p) (seconds64 p)
             (fraction64 p) (fpart64 p) (neg p) (input p).
Definition set_hours (p : period64) (v : Z) : period64 :=
  mkPeriod64 (years64 p) (months64 p) (days64 p) v (minutes64 p) (seconds64 p)
             (fraction64 p) (fpart64 p) (neg p) (input p).
Definition set_minutes (p : period64) (v : Z) : period64 :=
  mkPeriod64 (years64 p) (months64 p) (days64 p) (hours64 p) v (seconds64 p)
             (fraction64 p) (fpart64 p) (neg p) (input p).
Definition set_seconds (p : period64) (v : Z) : period64 :=
  mkPeriod64 (years64 p) (months64 p) (days64 p) (hours64 p) (minutes64 p) v
             (fraction64 p) (fpart64 p) (neg p) (input p).
Definition set_fraction (p : period64) (f : Z) (d : designator) : period64 :=
  mkPeriod64 (years64 p) (months64 p) (days64 p) (hours64 p) (minutes64 p)
             (seconds64 p) f d (neg p) (input p).

(** ** Fraction reductions *)

Definition reduceYearsFraction (p64 : period64) : period64 :=
  match fpart64 p64 with
  | Year =>
      let centiMonths := mul64 12 (fraction64 p64) in
      let monthFraction := rem64 centiMonths 100 in
      if monthFraction =? 0
      then set_fraction
             (set_months p64 (add64 (months64 p64) (quot64 centiMonths 100)))
             0 NoFraction
      else p64
  | _ => p64
  end.

Definition reduceDaysFraction (p64 : period64) (precise : bool) : period64 :=
  if negb precise && designator_eqb (fpart64 p64) Day then
    let centiHours := mul64 24 (fraction64 p64) in
    let hourFraction := rem64 centiHours 100 in
    if hourFraction =? 0
    then set_fraction
           (set_hours p64 (add64 (hours64 p64) (quot64 centiHours 100)))
           0 NoFraction
    else p64
  else p64.

Definition reduceHoursFraction (p64 : period64) : period64 :=
  match fpart64 p64 with
  | Hour =>
      let centiMinutes := mul64 60 (fraction64 p64) in
      let minuteFraction := rem64 centiMinutes 100 in
      if minuteFraction =? 0
      then set_fraction
             (set_minutes p64 (add64 (minutes64 p64) (quot64 centiMinutes 100)))
             0 NoFraction
      else p64
  | _ => p64
  end.

Definition reduceMinutesFraction (p64 : period64) : period64 :=
  match fpart64 p64 with
  | Minute =>
      let centiSeconds := mul64 60 (fraction64 p64) in
      let secondFraction := rem64 centiSeconds 100 in
      if secondFraction =? 0
      then set_fraction
             (set_seconds p64 (add64 (seconds64 p64) (quot64 centiSeconds 100)))
             0 NoFraction
      else p64
  | _ => p64
  end.

(** ** Narrowing, ripple-up and the centi-unit combiner *)

Section Narrowing.

(** [p64.String()], the textual rendering used when no input text is known.
    Formatting lives outside the arithmetic engine. *)
Variable String64 : period64 -> string.

(** The names of the fields that [toPeriod] reports, in the order tested. *)
Definition overflowFields (p64 : period64) : list string :=
  (if years64 p64 >? MaxInt16 then ["years"%string] else []) ++
  (if months64 p64 >? MaxInt16 then ["months"%string] else []) ++
  (if days64 p64 >? MaxInt16 then ["days"%string] else []) ++
  (if hours64 p64 >? MaxInt16 then ["hours"%string] else []) ++
  (if minutes64 p64 >? MaxInt16 then ["minutes"%string] else []) ++
  (if seconds64 p64 >? MaxInt16 then ["seconds"%string] else []) ++
  (if fraction64 p64 >? 99 then ["fraction"%string] else []).

(** [fmt.Errorf("%s: integer overflow occurred in %s", input, Join(f, ","))]. *)
Definition overflowMessage (inp : string) (f : list string) : string :=
  (inp ++ ": integer overflow occurred in " ++ String.concat "," f)%string.

(** The value [toPeriod] builds when no field was reported. *)
Definition narrow (p64 : period64) : Period :=
  if neg p64 then
    mkPeriod (int16 (neg64 (years64 p64))) (int16 (neg64 (months64 p64)))
             (int16 (neg64 (days64 p64))) (int16 (neg64 (hours64 p64)))
             (int16 (neg64 (minutes64 p64))) (int16 (neg64 (seconds64 p64)))
             (neg8 (fraction64 p64)) (fpart64 p64)
  else
    mkPeriod (int16 (years64 p64)) (int16 (months64 p64))
             (int16 (days64 p64)) (int16 (hours64 p64))
             (int16 (minutes64 p64)) (int16 (seconds64 p64))
             (fraction64 p64) (fpart64 p64).

(** [toPeriod] returns the pair (Period, error); a nil error is [None]. *)
Definition toPeriod (p64 : period64) : Period * option string :=
  let f := overflowFields p64 in
  if (0 <? Z.of_nat (List.length f)) then
    let inp := if String.eqb (input p64) "" then String64 p64 else input p64 in
    (zeroPeriod, Some (overflowMessage inp f))
  else (narrow p64, None).

End Narrowing.

Section RippleUp.

(** The floating-point section of [rippleUp] (total hours divided by the
    average month length, then [math.Modf] three times).  It is a function of
    [totalHours] alone and yields the four integers the code converts back:
    [int64(deltaMonths)], [int64(days)], [int64(hours)] and
    [int64(remHours * 60)]. *)
Variable monthCollapse : Z -> Z * Z * Z * Z.

Definition rippleUp (p64 : period64) (precise : bool) : period64 :=
  let hms := add64 (add64 (mul64 (hours64 p64) 3600) (mul64 (minutes64 p64) 60))
                   (seconds64 p64) in
  let '(days1, hms1) :=
    if hms <? 0 then
      let dd := sub64 (quot64 hms 86400) 1 in
      (add64 (days64 p64) dd, sub64 hms (mul64 dd 86400))
    else (days64 p64, hms) in
  let hours1 := quot64 hms1 3600 in
  let minutes1 := sub64 (quot64 hms1 60) (mul64 hours1 60) in
  let seconds1 := rem64 hms1 60 in
  let '(days2, hours2) :=
    if negb precise || (hours1 >? MaxInt16) then
      let h := rem64 hours1 24 in
      (add64 days1 (quot64 hours1 24), if h <? 0 then neg64 h else h)
    else (days1, hours1) in
  let '(months3, days3, hours3, minutes3) :=
    if (days2 >? MaxInt16) || (days2 <? 0) then
      let totalHours := add64 (mul64 days2 24) hours2 in
      let '(deltaMonths, days, hours, remMinutes) := monthCollapse totalHours in
      let months' := add64 (months64 p64) deltaMonths in
      let minutes' := add64 minutes1 remMinutes in
      if hours >=? 24
      then (months', add64 days (quot64 hours 24), rem64 hours 24, minutes')
      else (months', days, hours, minutes')
    else (months64 p64, days2, hours2, minutes1) in
  let '(years4, months4) :=
    if negb (months3 =? 0)
    then (add64 (years64 p64) (quot64 months3 12), rem64 months3 12)
    else (years64 p64, months3) in
  mkPeriod64 years4 months4 days3 hours3 minutes3 seconds1
             (fraction64 p64) (fpart64 p64) (neg p64) (input p64).

(** [normalise64] operates on values in which all fields are positive. *)
Definition normalise64 (p64 : period64) (precise : bool) : period64 :=
  reduceMinutesFraction
    (reduceHoursFraction
       (reduceDaysFraction
          (reduceYearsFraction (rippleUp p64 precise)) precise)).

Definition p64Of (cym cd chms : Z) (neg : bool) : period64 :=
  let p0 := mkPeriod64 0 (quot64 cym 100) (quot64 cd 100) 0 0 (quot64 chms 100)
                       0 NoFraction neg "" in
  let ymf := rem64 cym 100 in
  let p1 := if negb (ymf =? 0) then set_fraction p0 (int8 ymf) Month else p0 in
  let df := rem64 cd 100 in
  let p2 := if negb (df =? 0) then set_fraction p1 (int8 df) Day else p1 in
  let sf := rem64 chms 100 in
  let p3 := if negb (sf =? 0) then set_fraction p2 (int8 sf) Second else p2 in
  normalise64 p3 true.

End RippleUp.

(** ** Methods of [Period] used by the arithmetic *)

(** Modelled from the spec: [IsNegative] is declared with the [Period] type,
    outside the arithmetic files.  A Period is negative when a whole field or
    the fraction is below zero (the sign invariant makes all the others
    non-positive then). *)
Definition IsNegative (p : Period) : bool :=
  (years p <? 0) || (months p <? 0) || (days p <? 0) ||
  (hours p <? 0) || (minutes p <? 0) || (seconds p <? 0) || (fraction p <? 0).

(** Modelled from the spec: [IsZero], declared with the [Period] type; all
    fields zero, fraction zero. *)
Definition IsZero (p : Period) : bool :=
  (years p =? 0) && (months p =? 0) && (days p =? 0) &&
  (hours p =? 0) && (minutes p =? 0) && (seconds p =? 0) && (fraction p =? 0).

(** Modelled from the spec: [Sign], declared with the [Period] type; +1 for a
    positive period, -1 for a negative one, 0 for the zero period. *)
Definition Sign (p : Period) : Z :=
  if IsZero p then 0 else if IsNegative p then -1 else 1.

(** Modelled from the spec: [Negate], declared with the [Period] type; every
    field and the fraction change sign, the designator stays. *)
Definition Negate (p : Period) : Period :=
  mkPeriod (int16 (- years p)) (int16 (- months p)) (int16 (- days p))
           (int16 (- hours p)) (int16 (- minutes p)) (int16 (- seconds p))
           (int8 (- fraction p)) (fpart p).

(** Modelled from the spec: [absNeg], declared with the [Period] type; the
    absolute magnitude of the period and whether it was negative. *)
Definition absNeg (p : Period) : Period * bool :=
  if IsNegative p then (Negate p, true) else (p, false).

(** Modelled from the spec: the centi-unit combiners [centiYM], [centiDays]
    and [centiHMS], declared with the [Period] type.  Each folds the whole
    fields of one unit group and the fraction attached to a field of that
    group into hundredths of the group's smallest unit: centi-months,
    centi-days and centi-seconds, the units [p64Of] splits again. *)
Definition centiYM (p : Period) : Z :=
  (years p * 12 + months p) * 100 +
  match fpart p with
  | Year => fraction p * 12
  | Month => fraction p
  | _ => 0
  end.

Definition centiDays (p : Period) : Z :=
  days p * 100 + match fpart p with Day => fraction p | _ => 0 end.

Definition centiHMS (p : Period) : Z :=
  (hours p * 3600 + minutes p * 60 + seconds p) * 100 +
  match fpart p with
  | Hour => fraction p * 3600
  | Minute => fraction p * 60
  | Second => fraction p
  | _ => 0
  end.

(** ** Validity of a public value *)

Definition nonNegative (p : Period) : Prop :=
  0 <= years p /\ 0 <= months p /\ 0 <= days p /\
  0 <= hours p /\ 0 <= minutes p /\ 0 <= seconds p /\ 0 <= fraction p.

Definition nonPositive (p : Period) : Prop :=
  years p <= 0 /\ months p <= 0 /\ days p <= 0 /\
  hours p <= 0 /\ minutes p <= 0 /\ seconds p <= 0 /\ fraction p <= 0.

(** The sign invariant: never mixed. *)
Definition signInvariant (p : Period) : Prop :=
  nonNegative p \/ nonPositive p.

Definition inRange (p : Period) : Prop :=
  Z.abs (years p) <= MaxInt16 /\ Z.abs (months p) <= MaxInt16 /\
  Z.abs (days p) <= MaxInt16 /\ Z.abs (hours p) <= MaxInt16 /\
  Z.abs (minutes p) <= MaxInt16 /\ Z.abs (seconds p) <= MaxInt16 /\
  Z.abs (fraction p) <= 99.

(** The single-fraction invariant. *)
Definition singleFraction (p : Period) : Prop :=
  fraction p = 0 <-> fpart p = NoFraction.

Definition validPeriod (p : Period) : Prop :=
  inRange p /\ singleFraction p /\ signInvariant p.

(** Boolean versions, for evaluation on concrete values. *)
Definition signInvariantb (p : Period) : bool :=
  ((0 <=? years p) && (0 <=? months p) && (0 <=? days p) &&
   (0 <=? hours p) && (0 <=? minutes p) && (0 <=? seconds p) &&
   (0 <=? fraction p))
  ||
  ((years p <=? 0) && (months p <=? 0) && (days p <=? 0) &&
   (hours p <=? 0) && (minutes p <=? 0) && (seconds p <=? 0) &&
   (fraction p <=? 0)).

(** ** Add *)

Section Arithmetic.

Variable String64 : period64 -> string.
Variable monthCollapse : Z -> Z * Z * Z * Z.

Definition simpleAdd (period that : Period) : Period :=
  let '(period', fraction', fpart') :=
    match fpart period, fpart that with
    | NoFraction, _ => (period, fraction that, fpart that)
    | _, NoFraction => (period, fraction period, fpart period)
    | _, _ =>
        let fr := fraction period + fraction that in
        if (fr >? 99) || (fr <? -99) then
          let one := int16 (Sign period) in
          let bumped :=
            match fpart period with
            | Year => mkPeriod (add16 (years period) one) (months period)
                        (days period) (hours period) (minutes period)
                        (seconds period) (fraction period) (fpart period)
            | Month => mkPeriod (years period) (add16 (months period) one)
                        (days period) (hours period) (minutes period)
                        (seconds period) (fraction period) (fpart period)
            | Day => mkPeriod (years period) (months period)
                        (add16 (days period) one) (hours period)
                        (minutes period) (seconds period) (fraction period)
                        (fpart period)
            | Hour => mkPeriod (years period) (months period) (days period)
                        (add16 (hours period) one) (minutes period)
                        (seconds period) (fraction period) (fpart period)
            | Minute => mkPeriod (years period) (months period) (days period)
                        (hours period) (add16 (minutes period) one)
                        (seconds period) (fraction period) (fpart period)
            | Second => mkPeriod (years period) (months period) (days period)
                        (hours period) (minutes period)
                        (add16 (seconds period) one) (fraction period)
                        (fpart period)
            | NoFraction => period
            end in
          (bumped, Z.rem fr 100, fpart period)
        else (period, fr, fpart period)
    end in
  let fpart'' := if fraction' =? 0 then NoFraction else fpart' in
  mkPeriod (add16 (years period') (years that))
           (add16 (months period') (months that))
           (add16 (days period') (days that))
           (add16 (hours period') (hours that))
           (add16 (minutes period') (minutes that))
           (add16 (seconds period') (seconds that))
           (int8 fraction') fpart''.

Definition nonTrivialAdd (period that : Period) : Period :=
  let cym := add64 (centiYM period) (centiYM that) in
  let cd := add64 (centiDays period) (centiDays that) in
  let chms := add64 (centiHMS period) (centiHMS that) in
  if (cym >=? 0) && (cd >=? 0) && (chms >=? 0) then
    fst (toPeriod String64 (p64Of monthCollapse cym cd chms false))
  else
    fst (toPeriod String64
           (p64Of monthCollapse (neg64 cym) (neg64 cd) (neg64 chms) true)).

Definition Add (period that : Period) : Period :=
  if (designator_eqb (fpart period) (fpart that)
      || designator_eqb (fpart period) NoFraction
      || designator_eqb (fpart that) NoFraction)
     && (Sign period =? Sign that)
  then simpleAdd period that
  else nonTrivialAdd period that.

End Arithmetic.

(** ** AddTo *)

Section AddTo.

(** The timestamp capability the engine requires: [time.Time] with
    [AddDate] (calendar-exact) and [Add] (an elapsed-time offset). *)
Variable Time : Type.
Variable AddDate : Time -> Z -> Z -> Z -> Time.
Variable AddDuration : Time -> Z -> Time.

(** [hmsDuration] and [Duration] are declared with the [Period] type; they
    are taken as they are: the hour/minute/second magnitude as a
    [time.Duration], and the whole period as an approximate duration with its
    precision flag. *)
Variable hmsDuration : Period -> Z.
Variable Duration : Period -> Z * bool.

Definition AddTo (period : Period) (t : Time) : Time * bool :=
  let wholeYears := negb (designator_eqb (fpart period) Year) in
  let wholeMonths := negb (designator_eqb (fpart period) Month) in
  let wholeDays := negb (designator_eqb (fpart period) Day) in
  if wholeYears && wholeMonths && wholeDays then
    let t1 := AddDate t (years period) (months period) (days period) in
    (AddDuration t1 (hmsDuration period), true)
  else
    let '(d, precise) := Duration period in
    (AddDuration t d, precise).

End AddTo.

(** ** Scaling *)

(** A Go call either returns or panics. *)
Inductive outcome (A : Type) : Type :=
  | Panic : outcome A
  | Return : A -> outcome A.
Arguments Panic {A}.
Arguments Return {A} _.

Definition bind {A B : Type} (o : outcome A) (k : A -> outcome B) : outcome B :=
  match o with
  | Panic => Panic
  | Return a => k a
  end.

Notation "x <- e ;; k" := (bind e (fun x => k))
  (at level 61, e at next level, right associativity).

(** [x % d] on int64: a zero divisor is a run-time panic. *)
Definition checkedRem (x d : Z) : outcome Z :=
  if d =? 0 then Panic else Return (rem64 x d).

(** [x / d] on int64: a zero divisor is a run-time panic. *)
Definition checkedQuot (x d : Z) : outcome Z :=
  if d =? 0 then Panic else Return (quot64 x d).

Definition Microsecond : Z := 1000.
Definition Millisecond : Z := 1000000.

Section Scale.

Variable String64 : period64 -> string.
Variable monthCollapse : Z -> Z * Z * Z * Z.

(** Constants and methods declared with the [Period] type and used by the
    approximate path only. *)
Variable daysPerMonthE6 : Z.
Variable oneE6 : Z.
Variable NewOf : Z -> Period * bool.
Variable condNegate : Period -> bool -> Period.
Variable Normalise : Period -> bool -> Period.
Variable Simplify : Period -> bool -> Period.

Definition rationalScale64 (period : Period) (m d : Z)
  : outcome (Period * option string) :=
  let '(ap, neg) := absNeg period in
  let cym := centiYM ap in
  let cd := centiDays ap in
  let chms := centiHMS ap in
  let mcym := mul64 cym m in
  let mcd := mul64 cd m in
  let mchms := mul64 chms m in
  cymr <- checkedRem mcym d ;;
  cdr <- checkedRem mcd d ;;
  chmsr <- checkedRem mchms d ;;
  if (cymr =? 0) && (cdr =? 0) && (chmsr =? 0) then
    scd <- checkedQuot mcd d ;;
    let '(mchms', mcd') :=
      if (d >? m) && negb (mul64 scd d =? mcd)
      then (mul64 mcd 24, 0)
      else (mchms, mcd) in
    qym <- checkedQuot mcym d ;;
    qhms <- checkedQuot mchms' d ;;
    Return (toPeriod String64 (p64Of monthCollapse qym scd qhms neg))
  else
    let ymdDuration :=
      mul64 (mul64 (add64 (mul64 cym daysPerMonthE6) (mul64 cd oneE6)) 864)
            Microsecond in
    let hmsDuration := mul64 (mul64 chms 10) Millisecond in
    let duration := add64 ymdDuration hmsDuration in
    let pr1 := ymdDuration =? 0 in
    mul <- checkedQuot (mul64 duration m) d ;;
    let '(p2, pr2) := NewOf (add64 mul (mul64 5 Millisecond)) in
    let precise := pr1 && pr2 in
    Return (Simplify (Normalise (condNegate p2 neg) precise) precise, None).

Definition RationalScale (period : Period) (multiplier divisor : Z)
  : outcome (Period * option string) :=
  rationalScale64 period (int64 multiplier) (int64 divisor).

(** The float factor is printed with [%f] and read back as a [big.Rat]; the
    engine sees only the numerator and denominator narrowed to int64, or the
    failure of the conversion together with the message built for it. *)
Variable Float32 : Type.
Variable ratOfFloat : Float32 -> option (Z * Z).
Variable unableToScale : Period -> Float32 -> string.

Definition ScaleWithOverflowCheck (period : Period) (factor : Float32)
  : outcome (Period * option string) :=
  match ratOfFloat factor with
  | None => Return (zeroPeriod, Some (unableToScale period factor))
  | Some (multiplier64, divisor64) =>
      rationalScale64 period multiplier64 divisor64
  end.

Definition Scale (period : Period) (factor : Float32) : outcome Period :=
  r <- ScaleWithOverflowCheck period factor ;;
  Return (fst r).

End Scale.

(** ** Concrete stand-ins for the external capabilities

    They let the definitions run on concrete inputs.  The results stated with
    them below hold for every other choice as well whenever the evaluated
    input does not reach the capability. *)

Module Sample.

(** A rendering that only tells the sign. *)
Definition String64 (p : period64) : string :=
  if neg p then "-P"%string else "P"%string.

(** No month is carried and the hours are handed back as they came. *)
Definition monthCollapse (totalHours : Z) : Z * Z * Z * Z :=
  (0, 0, totalHours, 0).

(** Timestamps as the record of the calls made on the capability. *)
Inductive Time : Type :=
  | Epoch : Time
  | AddDate : Time -> Z -> Z -> Z -> Time
  | AddDuration : Time -> Z -> Time.

Definition Second_ns : Z := 1000000000.

Definition hmsDuration (p : Period) : Z :=
  (hours p * 3600 + minutes p * 60 + seconds p) * Second_ns.

Definition Duration (p : Period) : Z * bool :=
  (hmsDuration p, false).

End Sample.

(** ** Facts on the fixed-width integers *)

Lemma wrap_small (bits x : Z) :
  0 < bits -> - 2 ^ (bits - 1) <= x < 2 ^ (bits - 1) -> wrap bits x = x.
Proof.
  intros Hb Hx. unfold wrap.
  assert (E : 2 ^ bits = 2 * 2 ^ (bits - 1)).
  { replace bits with (Z.succ (bits - 1)) at 1 by lia.
    rewrite Z.pow_succ_r by lia. reflexivity. }
  rewrite Z.mod_small by lia. lia.
Qed.

Lemma int64_small (x : Z) : in64 x -> int64 x = x.
Proof.
  unfold in64, MinInt64, MaxInt64, int64. intros H.
  apply wrap_small; [lia|]. change (2 ^ (64 - 1)) with 9223372036854775808. lia.
Qed.

Lemma int16_small (x : Z) : in16 x -> int16 x = x.
Proof.
  unfold in16, MinInt16, MaxInt16, int16. intros H.
  apply wrap_small; [lia|]. change (2 ^ (16 - 1)) with 32768. lia.
Qed.

Lemma int8_small (x : Z) : in8 x -> int8 x = x.
Proof.
  unfold in8, int8. intros H.
  apply wrap_small; [lia|]. change (2 ^ (8 - 1)) with 128. lia.
Qed.

Lemma wrap_range (bits x : Z) :
  0 < bits -> - 2 ^ (bits - 1) <= wrap bits x < 2 ^ (bits - 1).
Proof.
  intros Hb. unfold wrap.
  assert (E : 2 ^ bits = 2 * 2 ^ (bits - 1)).
  { replace bits with (Z.succ (bits - 1)) at 1 by lia.
    rewrite Z.pow_succ_r by lia. reflexivity. }
  assert (P : 0 < 2 ^ (bits - 1)) by (apply Z.pow_pos_nonneg; lia).
  pose proof (Z.mod_pos_bound (x + 2 ^ (bits - 1)) (2 ^ bits)) as B.
  lia.
Qed.

Lemma int64_range (x : Z) : in64 (int64 x).
Proof.
  unfold in64, MinInt64, MaxInt64, int64.
  pose proof (wrap_range 64 x ltac:(lia)) as B.
  change (2 ^ (64 - 1)) with 9223372036854775808 in B. lia.
Qed.

Lemma wrap_congr (bits x y : Z) :
  0 < bits -> (x - y) mod 2 ^ bits = 0 -> wrap bits x = wrap bits y.
Proof.
  intros Hb H. unfold wrap. f_equal.
  assert (P : 0 < 2 ^ bits) by (apply Z.pow_pos_nonneg; lia).
  apply Z.mod_divide in H; [|lia]. destruct H as [k Hk].
  replace (x + 2 ^ (bits - 1)) with (y + 2 ^ (bits - 1) + k * 2 ^ bits) by lia.
  apply Z.mod_add. lia.
Qed.

Lemma wrap_idem_add_l (bits x y : Z) :
  0 < bits -> wrap bits (wrap bits x + y) = wrap bits (x + y).
Proof.
  intros Hb. apply wrap_congr; [exact Hb|].
  assert (P : 0 < 2 ^ bits) by (apply Z.pow_pos_nonneg; lia).
  unfold wrap.
  replace ((x + 2 ^ (bits - 1)) mod 2 ^ bits - 2 ^ (bits - 1) + y - (x + y))
    with ((x + 2 ^ (bits - 1)) mod 2 ^ bits - (x + 2 ^ (bits - 1))) by lia.
  rewrite (Z.mod_eq (x + 2 ^ (bits - 1)) (2 ^ bits)) by lia.
  replace (x + 2 ^ (bits - 1) - 2 ^ bits * ((x + 2 ^ (bits - 1)) / 2 ^ bits)
           - (x + 2 ^ (bits - 1)))
    with ((- ((x + 2 ^ (bits - 1)) / 2 ^ bits)) * 2 ^ bits) by lia.
  apply Z.mod_mul. lia.
Qed.

Lemma wrap_idem_mul_l (bits x y : Z) :
  0 < bits -> wrap bits (wrap bits x * y) = wrap bits (x * y).
Proof.
  intros Hb. apply wrap_congr; [exact Hb|].
  assert (P : 0 < 2 ^ bits) by (apply Z.pow_pos_nonneg; lia).
  unfold wrap.
  rewrite (Z.mod_eq (x + 2 ^ (bits - 1)) (2 ^ bits)) by lia.
  replace ((x + 2 ^ (bits - 1) - 2 ^ bits * ((x + 2 ^ (bits - 1)) / 2 ^ bits)
            - 2 ^ (bits - 1)) * y - x * y)
    with ((- ((x + 2 ^ (bits - 1)) / 2 ^ bits) * y) * 2 ^ bits) by lia.
  apply Z.mod_mul. lia.
Qed.

Lemma add16_comm (x y : Z) : add16 x y = add16 y x.
Proof. unfold add16. f_equal. lia. Qed.

Lemma add16_bump_swap (x y one : Z) :
  add16 (add16 x one) y = add16 (add16 y one) x.
Proof.
  unfold add16, int16.
  rewrite !wrap_idem_add_l by lia. f_equal. lia.
Qed.

Lemma add64_comm (x y : Z) : add64 x y = add64 y x.
Proof. unfold add64. f_equal. lia. Qed.

(** An exact int64 division multiplies back to the dividend, the wrapped
    quotient of the most negative value by -1 included. *)
Lemma quot64_mul64_exact (x d : Z) :
  in64 x -> d <> 0 -> rem64 x d = 0 -> mul64 (quot64 x d) d = x.
Proof.
  unfold mul64, quot64, rem64, int64. intros Hx Hd Hr.
  rewrite wrap_idem_mul_l by lia.
  pose proof (Z.quot_rem' x d) as E. rewrite Hr in E.
  replace (Z.quot x d * d) with x by lia.
  apply int64_small. exact Hx.
Qed.

Lemma designator_eqb_eq (a b : designator) :
  designator_eqb a b = true <-> a = b.
Proof. destruct a, b; simpl; split; intros H; congruence. Qed.

Lemma designator_eqb_sym (a b : designator) :
  designator_eqb a b = designator_eqb b a.
Proof. destruct a, b; reflexivity. Qed.

(** ** The fraction-reduction passes *)

Module Reduce.

(** The converted centi-value of a pass with conversion factor [k]. *)
Definition centi (k : Z) (p : period64) : Z := mul64 k (fraction64 p).

(** The conversion is exact: zero remainder modulo 100. *)
Definition exact (k : Z) (p : period64) : Prop := rem64 (centi k p) 100 = 0.











End Reduce.

(** ** Narrowing: [toPeriod] *)

Lemma app_nil_iff (A : Type) (l l' : list A) :
  l ++ l' = [] <-> l = [] /\ l' = [].
Proof.
  split.
  - destruct l; simpl; [intros E; split; [reflexivity|exact E]|discriminate].
  - intros [E1 E2]. subst. reflexivity.
Qed.

Lemma flag_nil (k : string) (c : bool) :
  (if c then [k] else []) = [] <-> c = false.
Proof. destruct c; split; intros E; try discriminate E; reflexivity. Qed.

Lemma gtb_false (a b : Z) : (a >? b) = false <-> a <= b.
Proof. destruct (Z.gtb_spec a b); split; intros E; try discriminate E; lia. Qed.

Lemma overflowFields_nil (p : period64) :
  overflowFields p = [] <->
  years64 p <= MaxInt16 /\ months64 p <= MaxInt16 /\ days64 p <= MaxInt16 /\
  hours64 p <= MaxInt16 /\ minutes64 p <= MaxInt16 /\
  seconds64 p <= MaxInt16 /\ fraction64 p <= 99.
Proof.
  unfold overflowFields.
  rewrite !app_nil_iff, !flag_nil, !gtb_false. reflexivity.
Qed.




Section NarrowingFacts.

Variable String64 : period64 -> string.

(** The text the error message starts with: the original input when known,
    the rendering of the value otherwise. *)
Definition errorLabel (p64 : period64) : string :=
  if String.eqb (input p64) "" then String64 p64 else input p64.

Lemma toPeriod_cases (p : period64) :
  (overflowFields p = [] /\ toPeriod String64 p = (narrow p, None))
  \/ (overflowFields p <> [] /\
      toPeriod String64 p =
        (zeroPeriod,
         Some (overflowMessage (errorLabel p) (overflowFields p)))).
Proof.
  unfold toPeriod, errorLabel.
  destruct (overflowFields p) as [|x l] eqn:E.
  - left. split; reflexivity.
  - right. split; [discriminate|].
    replace (0 <? Z.of_nat (List.length (x :: l))) with true; [reflexivity|].
    symmetry. apply Z.ltb_lt. simpl List.length. lia.
Qed.

End NarrowingFacts.


(** C9. The range checks of [toPeriod] are one-sided.  Whenever no whole
    field is above 32767 and the fraction is not above 99, the value is
    narrowed with a nil error, whatever lies below: a negative field of any
    magnitude and a fraction below -99 pass the checks, and the fields are
    cut to 16 bits by the conversion. *)
Theorem toPeriod_checks_upper_bound_only
  (String64 : period64 -> string) (p : period64) :
  years64 p <= MaxInt16 -> months64 p <= MaxInt16 -> days64 p <= MaxInt16 ->
  hours64 p <= MaxInt16 -> minutes64 p <= MaxInt16 ->
  seconds64 p <= MaxInt16 -> fraction64 p <= 99 ->
  toPeriod String64 p = (narrow p, None).
Proof.
  intros Hy Hmo Hd Hh Hmi Hs Hf.
  destruct (toPeriod_cases String64 p) as [[_ E]|[N _]]; [exact E|].
  exfalso. apply N. apply overflowFields_nil. repeat split; assumption.
Qed.

(** A period64 with -40000 years and a fraction of -120: no error, and the
    public value carries 25536 years. *)
Definition belowRange : period64 :=
  mkPeriod64 (-40000) 0 0 0 0 0 (-120) Day false "".

Lemma toPeriod_checks_upper_bound_only_witness :
  years64 belowRange < - MaxInt16 /\ fraction64 belowRange < -99 /\
  toPeriod Sample.String64 belowRange = (narrow belowRange, None) /\
  narrow belowRange = mkPeriod 25536 0 0 0 0 0 (-120) Day.
Proof.
  split; [vm_compute; reflexivity|].
  split; [vm_compute; reflexivity|].
  split; [|vm_compute; reflexivity].
  apply (toPeriod_checks_upper_bound_only Sample.String64 belowRange);
    vm_compute; discriminate.
Defined.

(** ** AddTo *)

(** C5. When the fraction designator is not Year, Month or Day, [AddTo]
    hands the whole years, months and days to the calendar addition of the
    timestamp capability, adds the hour/minute/second duration to that
    result, and returns the flag [true]. *)
Theorem AddTo_whole_dates_precise
  (Time : Type) (AddDate : Time -> Z -> Z -> Z -> Time)
  (AddDuration : Time -> Z -> Time)
  (hmsDuration : Period -> Z) (Duration : Period -> Z * bool)
  (period : Period) (t : Time) :
  fpart period <> Year -> fpart period <> Month -> fpart period <> Day ->
  AddTo Time AddDate AddDuration hmsDuration Duration period t =
    (AddDuration (AddDate t (years period) (months period) (days period))
                 (hmsDuration period),
     true).
Proof.
  intros HY HM HD. unfold AddTo.
  destruct (fpart period); try congruence; reflexivity.
Qed.

(** One and a half hours, two days, on the recorded timestamp. *)
Definition clockPeriod : Period := mkPeriod 0 0 2 1 0 0 50 Hour.

Lemma AddTo_whole_dates_precise_witness :
  AddTo Sample.Time Sample.AddDate Sample.AddDuration
        Sample.hmsDuration Sample.Duration clockPeriod Sample.Epoch =
    (Sample.AddDuration
       (Sample.AddDate Sample.Epoch (years clockPeriod) (months clockPeriod)
                       (days clockPeriod))
       (Sample.hmsDuration clockPeriod),
     true).
Proof.
  apply (AddTo_whole_dates_precise Sample.Time Sample.AddDate
           Sample.AddDuration Sample.hmsDuration Sample.Duration
           clockPeriod Sample.Epoch); simpl; discriminate.
Defined.

(** ** Scaling *)

Section ScaleFacts.

Variable String64 : period64 -> string.
Variable monthCollapse : Z -> Z * Z * Z * Z.
Variable daysPerMonthE6 : Z.
Variable oneE6 : Z.
Variable NewOf : Z -> Period * bool.
Variable condNegate : Period -> bool -> Period.
Variable Normalise : Period -> bool -> Period.
Variable Simplify : Period -> bool -> Period.

Let scale := rationalScale64 String64 monthCollapse daysPerMonthE6 oneE6
                             NewOf condNegate Normalise Simplify.

Lemma checkedRem_nonzero (x d : Z) :
  d <> 0 -> checkedRem x d = Return (rem64 x d).
Proof.
  intros H. unfold checkedRem. destruct (Z.eqb_spec d 0); [contradiction|].
  reflexivity.
Qed.

Lemma checkedQuot_nonzero (x d : Z) :
  d <> 0 -> checkedQuot x d = Return (quot64 x d).
Proof.
  intros H. unfold checkedQuot. destruct (Z.eqb_spec d 0); [contradiction|].
  reflexivity.
Qed.

Lemma scale_zero_divisor (p : Period) (m : Z) : scale p m 0 = Panic.
Proof.
  unfold scale, rationalScale64. destruct (absNeg p) as [ap ng]. reflexivity.
Qed.

Lemma scale_nonzero_divisor (p : Period) (m d : Z) :
  d <> 0 -> exists r, scale p m d = Return r.
Proof.
  intros Hd. unfold scale, rationalScale64.
  destruct (absNeg p) as [ap ng].
  rewrite !checkedRem_nonzero by exact Hd. cbn [bind].
  match goal with |- context [if ?c then _ else _] => destruct c end.
  - rewrite checkedQuot_nonzero by exact Hd. cbn [bind].
    match goal with |- context [if ?c then _ else _] => destruct c end;
      rewrite !checkedQuot_nonzero by exact Hd; cbn [bind]; eauto.
  - rewrite checkedQuot_nonzero by exact Hd. cbn [bind].
    match goal with |- context [NewOf ?x] => destruct (NewOf x) end.
    eauto.
Qed.

End ScaleFacts.

(** C8. [rationalScale64] panics exactly when the divisor is zero: with
    divisor 0 the first remainder [mcym % d] is an integer division by zero,
    for every period and multiplier, and no Period or error value is
    returned; with any other divisor every division of the function has a
    non-zero divisor and the call returns. *)
Theorem rationalScale64_panics_iff_zero_divisor
  (String64 : period64 -> string) (monthCollapse : Z -> Z * Z * Z * Z)
  (daysPerMonthE6 oneE6 : Z) (NewOf : Z -> Period * bool)
  (condNegate Normalise Simplify : Period -> bool -> Period)
  (p : Period) (m d : Z) :
  rationalScale64 String64 monthCollapse daysPerMonthE6 oneE6 NewOf
                  condNegate Normalise Simplify p m d = Panic
  <-> d = 0.
Proof.
  split.
  - intros E. destruct (Z.eq_dec d 0) as [Z0|NZ]; [exact Z0|].
    destruct (scale_nonzero_divisor String64 monthCollapse daysPerMonthE6
                oneE6 NewOf condNegate Normalise Simplify p m d NZ) as [r R].
    rewrite R in E. discriminate E.
  - intros ->. apply scale_zero_divisor.
Qed.

(** The three scaled group products of [rationalScale64]. *)
Definition scaledYM (p : Period) (m : Z) : Z :=
  mul64 (centiYM (fst (absNeg p))) m.
Definition scaledDays (p : Period) (m : Z) : Z :=
  mul64 (centiDays (fst (absNeg p))) m.
Definition scaledHMS (p : Period) (m : Z) : Z :=
  mul64 (centiHMS (fst (absNeg p))) m.

(** The exact path: every product is divisible by the divisor. *)
Definition exactPath (p : Period) (m d : Z) : Prop :=
  rem64 (scaledYM p m) d = 0 /\ rem64 (scaledDays p m) d = 0 /\
  rem64 (scaledHMS p m) d = 0.

Lemma rationalScale64_exact
  (String64 : period64 -> string) (monthCollapse : Z -> Z * Z * Z * Z)
  (daysPerMonthE6 oneE6 : Z) (NewOf : Z -> Period * bool)
  (condNegate Normalise Simplify : Period -> bool -> Period)
  (p : Period) (m d : Z) :
  d <> 0 -> exactPath p m d ->
  mul64 (quot64 (scaledDays p m) d) d = scaledDays p m /\
  rationalScale64 String64 monthCollapse daysPerMonthE6 oneE6 NewOf
                  condNegate Normalise Simplify p m d =
    Return (toPeriod String64
              (p64Of monthCollapse (quot64 (scaledYM p m) d)
                     (quot64 (scaledDays p m) d) (quot64 (scaledHMS p m) d)
                     (snd (absNeg p)))).
Proof.
  unfold exactPath, scaledYM, scaledDays, scaledHMS.
  intros Hd (Hym & Hdd & Hhms).
  assert (G : mul64 (quot64 (mul64 (centiDays (fst (absNeg p))) m) d) d
              = mul64 (centiDays (fst (absNeg p))) m).
  { apply quot64_mul64_exact; [apply int64_range|exact Hd|exact Hdd]. }
  split; [exact G|].
  unfold rationalScale64. destruct (absNeg p) as [ap ng]. simpl fst in *.
  simpl snd.
  rewrite !checkedRem_nonzero by exact Hd. cbn [bind].
  rewrite Hym, Hdd, Hhms.
  change ((0 =? 0) && (0 =? 0) && (0 =? 0)) with true. cbv iota.
  rewrite checkedQuot_nonzero by exact Hd. cbn [bind].
  rewrite G, Z.eqb_refl. simpl negb. rewrite andb_false_r.
  rewrite !checkedQuot_nonzero by exact Hd. cbn [bind]. reflexivity.
Qed.

(** C10. On the exact path of [rationalScale64] (all three scaled products
    divisible by the divisor [d]) the quotient [scd = mcd / d] multiplied by
    [d] is [mcd] again, in int64 arithmetic, so the test [scd*d != mcd] is
    false and the branch that sets [mchms = mcd * 24] is never taken: the
    three quotients [mcym/d], [mcd/d], [mchms/d] reach [p64Of] as they are. *)
Theorem rationalScale64_exact_guard_is_dead
  (String64 : period64 -> string) (monthCollapse : Z -> Z * Z * Z * Z)
  (daysPerMonthE6 oneE6 : Z) (NewOf : Z -> Period * bool)
  (condNegate Normalise Simplify : Period -> bool -> Period)
  (p : Period) (m d : Z) :
  d <> 0 -> exactPath p m d ->
  ((d >? m) && negb (mul64 (quot64 (scaledDays p m) d) d =? scaledDays p m)
   = false) /\
  rationalScale64 String64 monthCollapse daysPerMonthE6 oneE6 NewOf
                  condNegate Normalise Simplify p m d =
    Return (toPeriod String64
              (p64Of monthCollapse (quot64 (scaledYM p m) d)
                     (quot64 (scaledDays p m) d) (quot64 (scaledHMS p m) d)
                     (snd (absNeg p)))).
Proof.
  intros Hd Hx.
  destruct (rationalScale64_exact String64 monthCollapse daysPerMonthE6 oneE6
              NewOf condNegate Normalise Simplify p m d Hd Hx) as [G R].
  split; [|exact R].
  rewrite G, Z.eqb_refl. apply andb_false_r.
Qed.

(** Three days scaled by 1/3: the divisor is above the multiplier and the
    products divide exactly. *)
Definition threeDays : Period := mkPeriod 0 0 3 0 0 0 0 NoFraction.

Lemma rationalScale64_exact_guard_is_dead_witness :
  3 <> 0 /\ exactPath threeDays 1 3 /\
  rationalScale64 Sample.String64 Sample.monthCollapse 30436875 1000000
                  (fun _ => (zeroPeriod, true)) (fun q _ => q)
                  (fun q _ => q) (fun q _ => q) threeDays 1 3 =
    Return (toPeriod Sample.String64
              (p64Of Sample.monthCollapse (quot64 (scaledYM threeDays 1) 3)
                     (quot64 (scaledDays threeDays 1) 3)
                     (quot64 (scaledHMS threeDays 1) 3)
                     (snd (absNeg threeDays)))).
Proof.
  split; [discriminate|].
  split; [vm_compute; repeat split|].
  apply (rationalScale64_exact_guard_is_dead Sample.String64
           Sample.monthCollapse 30436875 1000000
           (fun _ => (zeroPeriod, true)) (fun q _ => q) (fun q _ => q)
           (fun q _ => q) threeDays 1 3);
    [discriminate | vm_compute; repeat split].
Defined.

(** ** Commutativity of Add *)

Lemma simpleAdd_comm (a b : Period) :
  singleFraction a -> singleFraction b -> Sign a = Sign b ->
  fpart a = fpart b \/ fpart a = NoFraction \/ fpart b = NoFraction ->
  simpleAdd a b = simpleAdd b a.
Proof.
  intros SA SB HS HF. unfold simpleAdd. rewrite <- HS.
  generalize (int16 (Sign a)) as one. intros one.
  destruct a as [ya ma da ha mia sa fa pa].
  destruct b as [yb mb db hb mib sb fb pb].
  unfold singleFraction in SA, SB. cbn [fraction fpart] in *.
  destruct pa, pb;
    try (exfalso; destruct HF as [E|[E|E]]; discriminate E);
    cbn [years months days hours minutes seconds fraction fpart];
    try (assert (fa = 0) by (apply SA; reflexivity); subst fa);
    try (assert (fb = 0) by (apply SB; reflexivity); subst fb);
    cbv beta iota zeta;
    try (rewrite (Z.add_comm fb fa);
         destruct ((fa + fb >? 99) || (fa + fb <? -99));
         cbn [years months days hours minutes seconds fraction fpart]);
    try rewrite (add16_bump_swap yb ya one);
    try rewrite (add16_bump_swap mb ma one);
    try rewrite (add16_bump_swap db da one);
    try rewrite (add16_bump_swap hb ha one);
    try rewrite (add16_bump_swap mib mia one);
    try rewrite (add16_bump_swap sb sa one);
    rewrite ?(add16_comm yb ya), ?(add16_comm mb ma), ?(add16_comm db da),
            ?(add16_comm hb ha), ?(add16_comm mib mia), ?(add16_comm sb sa);
    try reflexivity.
Qed.

Lemma nonTrivialAdd_comm
  (String64 : period64 -> string) (monthCollapse : Z -> Z * Z * Z * Z)
  (a b : Period) :
  nonTrivialAdd String64 monthCollapse a b =
  nonTrivialAdd String64 monthCollapse b a.
Proof.
  unfold nonTrivialAdd.
  rewrite (add64_comm (centiYM b)), (add64_comm (centiDays b)),
          (add64_comm (centiHMS b)).
  reflexivity.
Qed.

(** C3. For every pair of valid Periods, [a.Add(b)] and [b.Add(a)] are the
    same value, field by field, fraction and designator included, on the
    fast path and on the general path alike. *)
Theorem Add_commutative
  (String64 : period64 -> string) (monthCollapse : Z -> Z * Z * Z * Z)
  (a b : Period) :
  validPeriod a -> validPeriod b ->
  Add String64 monthCollapse a b = Add String64 monthCollapse b a.
Proof.
  intros (_ & SA & _) (_ & SB & _). unfold Add.
  rewrite (designator_eqb_sym (fpart b) (fpart a)).
  rewrite (Z.eqb_sym (Sign b) (Sign a)).
  rewrite (orb_comm (designator_eqb (fpart a) (fpart b)
                     || designator_eqb (fpart b) NoFraction)
                    (designator_eqb (fpart a) NoFraction)).
  rewrite orb_assoc.
  rewrite (orb_comm (designator_eqb (fpart a) NoFraction)
                    (designator_eqb (fpart a) (fpart b))).
  destruct ((designator_eqb (fpart a) (fpart b)
             || designator_eqb (fpart a) NoFraction
             || designator_eqb (fpart b) NoFraction)
            && (Sign a =? Sign b)) eqn:C.
  - apply andb_true_iff in C. destruct C as [F S].
    apply Z.eqb_eq in S.
    rewrite !orb_true_iff, !designator_eqb_eq in F.
    apply simpleAdd_comm; [exact SA|exact SB|exact S|tauto].
  - apply nonTrivialAdd_comm.
Qed.

(** One and a half days and two and a quarter days; a year and minus a day. *)
Definition dayAndHalf : Period := mkPeriod 0 0 1 0 0 0 50 Day.
Definition twoDaysQuarter : Period := mkPeriod 0 0 2 0 0 0 75 Day.

Lemma validPeriod_dec_sound (p : Period) :
  (Z.abs (years p) <=? MaxInt16) && (Z.abs (months p) <=? MaxInt16) &&
  (Z.abs (days p) <=? MaxInt16) && (Z.abs (hours p) <=? MaxInt16) &&
  (Z.abs (minutes p) <=? MaxInt16) && (Z.abs (seconds p) <=? MaxInt16) &&
  (Z.abs (fraction p) <=? 99) &&
  Bool.eqb (fraction p =? 0) (designator_eqb (fpart p) NoFraction) &&
  signInvariantb p = true ->
  validPeriod p.
Proof.
  unfold validPeriod, inRange, singleFraction, signInvariant, nonNegative,
    nonPositive, signInvariantb.
  rewrite !andb_true_iff, orb_true_iff, !andb_true_iff, !Z.leb_le.
  rewrite Bool.eqb_true_iff.
  intros ((R & SF) & SI). split; [tauto|]. split; [|tauto].
  rewrite <- Z.eqb_eq, <- designator_eqb_eq, SF. reflexivity.
Qed.

Lemma Add_commutative_witness :
  validPeriod dayAndHalf /\ validPeriod twoDaysQuarter /\
  Add Sample.String64 Sample.monthCollapse dayAndHalf twoDaysQuarter =
  Add Sample.String64 Sample.monthCollapse twoDaysQuarter dayAndHalf.
Proof.
  assert (V1 : validPeriod dayAndHalf)
    by (apply validPeriod_dec_sound; vm_compute; reflexivity).
  assert (V2 : validPeriod twoDaysQuarter)
    by (apply validPeriod_dec_sound; vm_compute; reflexivity).
  split; [exact V1|]. split; [exact V2|].
  apply (Add_commutative Sample.String64 Sample.monthCollapse
           dayAndHalf twoDaysQuarter V1 V2).
Defined.

(** ** Normalisation of non-negative centi-unit totals

    With non-negative totals that stay far from the int64 bounds, every int64
    operation of [p64Of] and [rippleUp] is the plain integer operation, and
    [/] and [%] are [Z.div] and [Z.modulo]. *)

Ltac bnd := unfold in64, MinInt64, MaxInt64 in *; Z.div_mod_to_equations; lia.

Lemma add64_small (x y : Z) : in64 (x + y) -> add64 x y = x + y.
Proof. apply int64_small. Qed.
Lemma sub64_small (x y : Z) : in64 (x - y) -> sub64 x y = x - y.
Proof. apply int64_small. Qed.
Lemma mul64_small (x y : Z) : in64 (x * y) -> mul64 x y = x * y.
Proof. apply int64_small. Qed.
Lemma quot64_nonneg (x k : Z) :
  0 <= x <= MaxInt64 -> 0 < k -> quot64 x k = x / k.
Proof.
  intros Hx Hk. unfold quot64. rewrite Z.quot_div_nonneg by lia.
  apply int64_small.
  pose proof (Z.div_pos x k ltac:(lia) Hk) as P.
  assert (Q : x / k <= x) by (apply Z.div_le_upper_bound; nia).
  unfold in64, MinInt64, MaxInt64 in *. lia.
Qed.
Lemma rem64_nonneg (x k : Z) : 0 <= x -> 0 < k -> rem64 x k = x mod k.
Proof. intros Hx Hk. unfold rem64. apply Z.rem_mod_nonneg; lia. Qed.

Definition big : Z := 1099511627776.

Lemma rippleUp_precise_nonneg (C : Z -> Z * Z * Z * Z) (p : period64) :
  years64 p = 0 -> hours64 p = 0 -> minutes64 p = 0 ->
  0 <= months64 p <= big -> 0 <= days64 p <= big -> 0 <= seconds64 p <= big ->
  (if seconds64 p / 3600 >? MaxInt16
   then days64 p + seconds64 p / 3600 / 24 else days64 p) <= MaxInt16 ->
  rippleUp C p true =
    mkPeriod64 (months64 p / 12) (months64 p mod 12)
      (if seconds64 p / 3600 >? MaxInt16
       then days64 p + seconds64 p / 3600 / 24 else days64 p)
      (if seconds64 p / 3600 >? MaxInt16
       then (seconds64 p / 3600) mod 24 else seconds64 p / 3600)
      (seconds64 p / 60 - seconds64 p / 3600 * 60)
      (seconds64 p mod 60)
      (fraction64 p) (fpart64 p) (neg p) (input p).
Proof.
  unfold big. intros Hy Hh Hm Hmo Hd Hs Hdd.
  unfold rippleUp. rewrite Hy, Hh, Hm.
  change (mul64 0 3600) with 0. change (mul64 0 60) with 0.
  change (add64 0 0) with 0.
  rewrite (add64_small 0 (seconds64 p)) by bnd. rewrite Z.add_0_l.
  destruct (Z.ltb_spec (seconds64 p) 0) as [N|_]; [lia|].
  rewrite (quot64_nonneg (seconds64 p) 3600) by bnd.
  rewrite (quot64_nonneg (seconds64 p) 60) by bnd.
  rewrite (rem64_nonneg (seconds64 p) 60) by bnd.
  rewrite (mul64_small (seconds64 p / 3600) 60) by bnd.
  rewrite (sub64_small (seconds64 p / 60)) by bnd.
  cbn [negb orb].
  rewrite (quot64_nonneg (seconds64 p / 3600) 24) by bnd.
  rewrite (rem64_nonneg (seconds64 p / 3600) 24) by bnd.
  destruct (Z.ltb_spec ((seconds64 p / 3600) mod 24) 0) as [N|_]; [bnd|].
  rewrite (add64_small (days64 p)) by bnd.
  set (d2 := if seconds64 p / 3600 >? MaxInt16
             then days64 p + seconds64 p / 3600 / 24 else days64 p) in *.
  set (h2 := if seconds64 p / 3600 >? MaxInt16
             then (seconds64 p / 3600) mod 24 else seconds64 p / 3600).
  assert (D0 : 0 <= d2).
  { unfold d2. destruct (seconds64 p / 3600 >? MaxInt16); bnd. }
  replace (if seconds64 p / 3600 >? MaxInt16
           then (days64 p + seconds64 p / 3600 / 24, (seconds64 p / 3600) mod 24)
           else (days64 p, seconds64 p / 3600)) with (d2, h2)
    by (unfold d2, h2; destruct (seconds64 p / 3600 >? MaxInt16); reflexivity).
  cbv beta iota zeta.
  destruct (Z.gtb_spec d2 MaxInt16) as [N|_]; [lia|].
  destruct (Z.ltb_spec d2 0) as [N|_]; [lia|].
  cbn [orb]. cbv beta iota zeta.
  destruct (Z.eqb_spec (months64 p) 0) as [E|E]; cbn [negb]; cbv beta iota zeta.
  - rewrite E. reflexivity.
  - rewrite (quot64_nonneg (months64 p) 12) by bnd.
    rewrite (rem64_nonneg (months64 p) 12) by bnd.
    rewrite (add64_small 0) by bnd. reflexivity.
Qed.


(** In precise mode the four reduction passes leave alone a fraction that
    is attached to Month, Day or Second, or absent. *)
Lemma reduce_passes_precise_id (p : period64) :
  fpart64 p = NoFraction \/ fpart64 p = Month \/ fpart64 p = Day \/
  fpart64 p = Second ->
  reduceMinutesFraction
    (reduceHoursFraction
       (reduceDaysFraction (reduceYearsFraction p) true)) = p.
Proof.
  intros F.
  assert (Y : reduceYearsFraction p = p).
  { unfold reduceYearsFraction.
    destruct F as [F|[F|[F|F]]]; rewrite F; reflexivity. }
  rewrite Y. unfold reduceDaysFraction. cbn [negb andb].
  unfold reduceHoursFraction, reduceMinutesFraction.
  destruct F as [F|[F|[F|F]]]; rewrite F; try reflexivity; rewrite F;
    reflexivity.
Qed.

Definition foldedDays (cd chms : Z) : Z :=
  if chms / 100 / 3600 >? MaxInt16
  then cd / 100 + chms / 100 / 3600 / 24 else cd / 100.

Definition foldedHours (chms : Z) : Z :=
  if chms / 100 / 3600 >? MaxInt16
  then (chms / 100 / 3600) mod 24 else chms / 100 / 3600.

Definition splitFraction (cym cd chms : Z) : Z * designator :=
  if negb (chms mod 100 =? 0) then (chms mod 100, Second)
  else if negb (cd mod 100 =? 0) then (cd mod 100, Day)
  else if negb (cym mod 100 =? 0) then (cym mod 100, Month)
  else (0, NoFraction).

Lemma p64Of_nonneg (C : Z -> Z * Z * Z * Z) (cym cd chms : Z) (ng : bool) :
  0 <= cym <= big -> 0 <= cd <= big -> 0 <= chms <= big ->
  foldedDays cd chms <= MaxInt16 ->
  p64Of C cym cd chms ng =
    mkPeriod64 (cym / 100 / 12) ((cym / 100) mod 12)
      (foldedDays cd chms) (foldedHours chms)
      (chms / 100 / 60 - chms / 100 / 3600 * 60) ((chms / 100) mod 60)
      (fst (splitFraction cym cd chms)) (snd (splitFraction cym cd chms))
      ng "".
Proof.
  unfold big, foldedDays, foldedHours. intros Hym Hd Hs Hf.
  unfold p64Of.
  rewrite (quot64_nonneg cym 100), (quot64_nonneg cd 100),
          (quot64_nonneg chms 100) by bnd.
  rewrite (rem64_nonneg cym 100), (rem64_nonneg cd 100),
          (rem64_nonneg chms 100) by bnd.
  rewrite (int8_small (cym mod 100)), (int8_small (cd mod 100)),
          (int8_small (chms mod 100)) by (unfold in8; bnd).
  set (raw := mkPeriod64 0 (cym / 100) (cd / 100) 0 0 (chms / 100)
                (fst (splitFraction cym cd chms))
                (snd (splitFraction cym cd chms)) ng "").
  match goal with
  | |- normalise64 C ?p true = _ => replace p with raw
  end.
  2:{ unfold raw, splitFraction, set_fraction.
      destruct (chms mod 100 =? 0), (cd mod 100 =? 0), (cym mod 100 =? 0);
        reflexivity. }
  unfold normalise64.
  rewrite (rippleUp_precise_nonneg C raw); unfold raw;
    cbn [years64 months64 days64 hours64 minutes64 seconds64 fraction64
         fpart64 neg input]; try reflexivity; try (unfold big; bnd);
    try exact Hf.
  apply reduce_passes_precise_id.
  cbn [fpart64]. unfold splitFraction.
  destruct (chms mod 100 =? 0), (cd mod 100 =? 0), (cym mod 100 =? 0);
    cbn [negb snd]; tauto.
Qed.

Definition nonNegative64 (r : period64) : Prop :=
  0 <= years64 r /\ 0 <= months64 r /\ 0 <= days64 r /\ 0 <= hours64 r /\
  0 <= minutes64 r /\ 0 <= seconds64 r /\ 0 <= fraction64 r.

Lemma int16_neg64_small (v : Z) :
  0 <= v <= MaxInt16 -> int16 (neg64 v) = - v.
Proof.
  unfold MaxInt16. intros H. unfold neg64.
  rewrite int64_small by bnd.
  apply int16_small. unfold in16, MinInt16, MaxInt16. lia.
Qed.

Lemma toPeriod_sign (S : period64 -> string) (r : period64) :
  nonNegative64 r -> signInvariant (fst (toPeriod S r)).
Proof.
  intros (Hy & Hmo & Hd & Hh & Hmi & Hs & Hf).
  destruct (toPeriod_cases S r) as [[N E]|[_ E]]; rewrite E; cbn [fst].
  2:{ left. unfold nonNegative, zeroPeriod; cbn. lia. }
  apply overflowFields_nil in N.
  destruct N as (Ny & Nmo & Nd & Nh & Nmi & Ns & Nf).
  unfold narrow. destruct (neg r).
  - right. unfold nonPositive.
    cbn [years months days hours minutes seconds fraction].
    rewrite !int16_neg64_small by lia.
    unfold neg8. rewrite int8_small by (unfold in8; lia). lia.
  - left. unfold nonNegative.
    cbn [years months days hours minutes seconds fraction].
    unfold MaxInt16 in *.
    rewrite !int16_small by (unfold in16, MinInt16, MaxInt16; lia). lia.
Qed.

Lemma p64Of_nonNegative64 (C : Z -> Z * Z * Z * Z) (cym cd chms : Z) (ng : bool) :
  0 <= cym <= big -> 0 <= cd <= big -> 0 <= chms <= big ->
  foldedDays cd chms <= MaxInt16 ->
  nonNegative64 (p64Of C cym cd chms ng).
Proof.
  intros Hym Hd Hs Hf. rewrite p64Of_nonneg by assumption.
  unfold nonNegative64, foldedDays, foldedHours, splitFraction, big in *.
  cbn [years64 months64 days64 hours64 minutes64 seconds64 fraction64].
  repeat split; try bnd.
  - destruct (chms / 100 / 3600 >? MaxInt16); bnd.
  - destruct (chms / 100 / 3600 >? MaxInt16); bnd.
  - destruct (chms mod 100 =? 0), (cd mod 100 =? 0), (cym mod 100 =? 0);
      cbn [negb fst]; bnd.
Qed.


(** ** The sign of the result of Add *)

Lemma IsZero_true (p : Period) :
  IsZero p = true <->
  years p = 0 /\ months p = 0 /\ days p = 0 /\ hours p = 0 /\
  minutes p = 0 /\ seconds p = 0 /\ fraction p = 0.
Proof.
  unfold IsZero. rewrite !andb_true_iff, !Z.eqb_eq. tauto.
Qed.

Lemma IsNegative_false (p : Period) :
  IsNegative p = false <-> nonNegative p.
Proof.
  unfold IsNegative, nonNegative. rewrite !orb_false_iff, !Z.ltb_ge. tauto.
Qed.

Lemma Sign_nonNegative (p : Period) :
  nonNegative p -> (Sign p = 0 /\ nonPositive p) \/ Sign p = 1.
Proof.
  intros NN. unfold Sign. destruct (IsZero p) eqn:Z0.
  - left. split; [reflexivity|]. apply IsZero_true in Z0.
    unfold nonPositive. lia.
  - right. apply IsNegative_false in NN. rewrite NN. reflexivity.
Qed.

Lemma Sign_nonPositive (p : Period) :
  nonPositive p -> (Sign p = 0 /\ nonNegative p) \/ Sign p = -1.
Proof.
  intros NP. unfold Sign. destruct (IsZero p) eqn:Z0.
  - left. split; [reflexivity|]. apply IsZero_true in Z0.
    unfold nonNegative. lia.
  - right. destruct (IsNegative p) eqn:N; [reflexivity|].
    apply IsNegative_false in N.
    assert (T : IsZero p = true).
    { apply IsZero_true. unfold nonNegative, nonPositive in *. lia. }
    congruence.
Qed.

Lemma same_sign_cases (a b : Period) :
  signInvariant a -> signInvariant b -> Sign a = Sign b ->
  (nonNegative a /\ nonNegative b) \/ (nonPositive a /\ nonPositive b).
Proof.
  intros [Na|Pa] [Nb|Pb] E; try tauto.
  - destruct (Sign_nonNegative a Na) as [[_ Pa]|Sa]; [tauto|].
    destruct (Sign_nonPositive b Pb) as [[_ Nb]|Sb]; [tauto|]. lia.
  - destruct (Sign_nonPositive a Pa) as [[_ Na]|Sa]; [tauto|].
    destruct (Sign_nonNegative b Nb) as [[_ Pb]|Sb]; [tauto|]. lia.
Qed.

Definition fieldSumsFit (a b : Period) : Prop :=
  Z.abs (years a + years b) < MaxInt16 /\
  Z.abs (months a + months b) < MaxInt16 /\
  Z.abs (days a + days b) < MaxInt16 /\
  Z.abs (hours a + hours b) < MaxInt16 /\
  Z.abs (minutes a + minutes b) < MaxInt16 /\
  Z.abs (seconds a + seconds b) < MaxInt16.

Lemma add16_small (x y : Z) : in16 (x + y) -> add16 x y = x + y.
Proof. apply int16_small. Qed.

Lemma add16_bump_small (x y one : Z) :
  in16 (x + one + y) -> add16 (add16 x one) y = x + one + y.
Proof.
  intros H. unfold add16, int16. rewrite wrap_idem_add_l by lia.
  apply int16_small. exact H.
Qed.


Ltac fit16 := unfold in16, in8, MinInt16, MaxInt16 in *; lia.

(** The [switch fpart] of [simpleAdd]: one whole unit goes to the field the
    fraction is attached to. *)
Definition carryInto (p : Period) (one : Z) : Period :=
  match fpart p with
  | Year => mkPeriod (add16 (years p) one) (months p) (days p) (hours p)
              (minutes p) (seconds p) (fraction p) (fpart p)
  | Month => mkPeriod (years p) (add16 (months p) one) (days p) (hours p)
              (minutes p) (seconds p) (fraction p) (fpart p)
  | Day => mkPeriod (years p) (months p) (add16 (days p) one) (hours p)
              (minutes p) (seconds p) (fraction p) (fpart p)
  | Hour => mkPeriod (years p) (months p) (days p) (add16 (hours p) one)
              (minutes p) (seconds p) (fraction p) (fpart p)
  | Minute => mkPeriod (years p) (months p) (days p) (hours p)
              (add16 (minutes p) one) (seconds p) (fraction p) (fpart p)
  | Second => mkPeriod (years p) (months p) (days p) (hours p) (minutes p)
              (add16 (seconds p) one) (fraction p) (fpart p)
  | NoFraction => p
  end.

(** The three values [simpleAdd] settles before it sums the fields: the
    receiver (with the carry, if any), the fraction and the designator. *)
Definition simpleAddParts (a b : Period) : Period * Z * designator :=
  if designator_eqb (fpart a) NoFraction then (a, fraction b, fpart b)
  else if designator_eqb (fpart b) NoFraction then (a, fraction a, fpart a)
  else
    let fr := fraction a + fraction b in
    if (fr >? 99) || (fr <? -99)
    then (carryInto a (int16 (Sign a)), Z.rem fr 100, fpart a)
    else (a, fr, fpart a).

Lemma simpleAdd_parts (a b : Period) :
  simpleAdd a b =
    let '(a', fr, fp) := simpleAddParts a b in
    mkPeriod (add16 (years a') (years b)) (add16 (months a') (months b))
             (add16 (days a') (days b)) (add16 (hours a') (hours b))
             (add16 (minutes a') (minutes b)) (add16 (seconds a') (seconds b))
             (int8 fr) (if fr =? 0 then NoFraction else fp).
Proof.
  unfold simpleAdd, simpleAddParts, carryInto.
  destruct a as [ya ma da ha mia sa fa pa].
  destruct b as [yb mb db hb mib sb fb pb].
  cbn [years months days hours minutes seconds fraction fpart].
  destruct pa, pb; cbn [designator_eqb]; cbv beta iota zeta;
    try reflexivity;
    destruct ((fa + fb >? 99) || (fa + fb <? -99)); reflexivity.
Qed.

Lemma carryInto_fields (p : Period) (one : Z) :
  (years (carryInto p one) = years p \/
   years (carryInto p one) = add16 (years p) one) /\
  (months (carryInto p one) = months p \/
   months (carryInto p one) = add16 (months p) one) /\
  (days (carryInto p one) = days p \/
   days (carryInto p one) = add16 (days p) one) /\
  (hours (carryInto p one) = hours p \/
   hours (carryInto p one) = add16 (hours p) one) /\
  (minutes (carryInto p one) = minutes p \/
   minutes (carryInto p one) = add16 (minutes p) one) /\
  (seconds (carryInto p one) = seconds p \/
   seconds (carryInto p one) = add16 (seconds p) one).
Proof.
  unfold carryInto. destruct (fpart p); cbn; tauto.
Qed.

(** A field sum that leaves room for the carry keeps the common sign. *)
Lemma field_sum_nonneg (x x' y one : Z) :
  x' = x \/ x' = add16 x one ->
  0 <= x -> 0 <= y -> Z.abs (x + y) < MaxInt16 -> 0 <= one <= 1 ->
  0 <= add16 x' y.
Proof.
  intros [E|E] Hx Hy Hs Ho; subst x'.
  - rewrite add16_small by fit16. lia.
  - rewrite (add16_small x one) by fit16.
    rewrite add16_small by fit16. lia.
Qed.

Lemma field_sum_nonpos (x x' y one : Z) :
  x' = x \/ x' = add16 x one ->
  x <= 0 -> y <= 0 -> Z.abs (x + y) < MaxInt16 -> -1 <= one <= 0 ->
  add16 x' y <= 0.
Proof.
  intros [E|E] Hx Hy Hs Ho; subst x'.
  - rewrite add16_small by fit16. lia.
  - rewrite (add16_small x one) by fit16.
    rewrite add16_small by fit16. lia.
Qed.

Lemma simpleAddParts_cases (a b : Period) :
  let '(a', fr, fp) := simpleAddParts a b in
  (a' = a \/ a' = carryInto a (int16 (Sign a))) /\
  (fr = fraction a \/ fr = fraction b \/
   (fr = fraction a + fraction b /\ -99 <= fr <= 99) \/
   fr = Z.rem (fraction a + fraction b) 100).
Proof.
  unfold simpleAddParts.
  destruct (designator_eqb (fpart a) NoFraction); [tauto|].
  destruct (designator_eqb (fpart b) NoFraction); [tauto|].
  cbv zeta.
  destruct (Z.gtb_spec (fraction a + fraction b) 99);
    destruct (Z.ltb_spec (fraction a + fraction b) (-99)); cbn [orb];
    split; tauto.
Qed.

Lemma simpleAddParts_fields (a b : Period) :
  let '(a', fr, fp) := simpleAddParts a b in
  let one := int16 (Sign a) in
  (years a' = years a \/ years a' = add16 (years a) one) /\
  (months a' = months a \/ months a' = add16 (months a) one) /\
  (days a' = days a \/ days a' = add16 (days a) one) /\
  (hours a' = hours a \/ hours a' = add16 (hours a) one) /\
  (minutes a' = minutes a \/ minutes a' = add16 (minutes a) one) /\
  (seconds a' = seconds a \/ seconds a' = add16 (seconds a) one).
Proof.
  pose proof (simpleAddParts_cases a b) as P.
  destruct (simpleAddParts a b) as [[a' fr] fp]. destruct P as [[E|E] _].
  - subst a'. cbv zeta. tauto.
  - subst a'. apply carryInto_fields.
Qed.

Lemma fraction_sum_nonneg (fa fb fr : Z) :
  Z.abs fa <= 99 -> Z.abs fb <= 99 -> 0 <= fa -> 0 <= fb ->
  fr = fa \/ fr = fb \/ (fr = fa + fb /\ -99 <= fr <= 99) \/
  fr = Z.rem (fa + fb) 100 ->
  0 <= fr <= 99.
Proof.
  intros Ha Hb Sa Sb [E|[E|[[E B]|E]]]; subst fr; try lia.
  Z.quot_rem_to_equations. lia.
Qed.

Lemma fraction_sum_nonpos (fa fb fr : Z) :
  Z.abs fa <= 99 -> Z.abs fb <= 99 -> fa <= 0 -> fb <= 0 ->
  fr = fa \/ fr = fb \/ (fr = fa + fb /\ -99 <= fr <= 99) \/
  fr = Z.rem (fa + fb) 100 ->
  -99 <= fr <= 0.
Proof.
  intros Ha Hb Sa Sb [E|[E|[[E B]|E]]]; subst fr; try lia.
  Z.quot_rem_to_equations. lia.
Qed.

Lemma simpleAdd_sign (a b : Period) :
  validPeriod a -> validPeriod b -> Sign a = Sign b ->
  fieldSumsFit a b -> signInvariant (simpleAdd a b).
Proof.
  intros (Ra & _ & Ia) (Rb & _ & Ib) E Fit.
  rewrite simpleAdd_parts.
  pose proof (simpleAddParts_cases a b) as P.
  pose proof (simpleAddParts_fields a b) as Q.
  destruct (simpleAddParts a b) as [[a' fr] fp].
  destruct P as [_ Pf]. cbv zeta in Q.
  destruct Q as (Cy & Cmo & Cd & Ch & Cmi & Cs).
  destruct Fit as (Fy & Fmo & Fd & Fh & Fmi & Fs).
  destruct Ra as (_ & _ & _ & _ & _ & _ & Rfa).
  destruct Rb as (_ & _ & _ & _ & _ & _ & Rfb).
  destruct (same_sign_cases a b Ia Ib E) as [[Na Nb]|[Pa Pb]].
  - left.
    assert (O : 0 <= int16 (Sign a) <= 1).
    { destruct (Sign_nonNegative a Na) as [[S _]|S]; rewrite S;
        vm_compute; split; discriminate. }
    destruct Na as (Ay & Amo & Ad & Ah & Ami & As & Af).
    destruct Nb as (By & Bmo & Bd & Bh & Bmi & Bs & Bf).
    assert (Fr : 0 <= fr <= 99)
      by (apply (fraction_sum_nonneg (fraction a) (fraction b)); assumption).
    unfold nonNegative.
    cbn [years months days hours minutes seconds fraction].
    repeat split;
      try (eapply field_sum_nonneg; [eassumption|assumption..]).
    clear - Fr. rewrite int8_small by (unfold in8; lia). lia.
  - right.
    assert (O : -1 <= int16 (Sign a) <= 0).
    { destruct (Sign_nonPositive a Pa) as [[S _]|S]; rewrite S;
        vm_compute; split; discriminate. }
    destruct Pa as (Ay & Amo & Ad & Ah & Ami & As & Af).
    destruct Pb as (By & Bmo & Bd & Bh & Bmi & Bs & Bf).
    assert (Fr : -99 <= fr <= 0)
      by (apply (fraction_sum_nonpos (fraction a) (fraction b)); assumption).
    unfold nonPositive.
    cbn [years months days hours minutes seconds fraction].
    repeat split;
      try (eapply field_sum_nonpos; [eassumption|assumption..]).
    clear - Fr. rewrite int8_small by (unfold in8; lia). lia.
Qed.

Definition halfBig : Z := 549755813888.

Lemma centi_bounds (p : Period) :
  inRange p ->
  Z.abs (centiYM p) <= halfBig /\ Z.abs (centiDays p) <= halfBig /\
  Z.abs (centiHMS p) <= halfBig.
Proof.
  unfold inRange, centiYM, centiDays, centiHMS, halfBig, MaxInt16.
  destruct p as [y mo d h mi s f fp].
  cbn [years months days hours minutes seconds fraction fpart].
  rewrite !Z.abs_le. intros R. destruct fp; lia.
Qed.

(** The path test of [Add]. *)
Definition fastPath (a b : Period) : bool :=
  (designator_eqb (fpart a) (fpart b)
   || designator_eqb (fpart a) NoFraction
   || designator_eqb (fpart b) NoFraction)
  && (Sign a =? Sign b).

(** The three group sums of [nonTrivialAdd] are all non-negative or all
    non-positive. *)
Definition groupSumsAgree (a b : Period) : Prop :=
  (0 <= centiYM a + centiYM b /\ 0 <= centiDays a + centiDays b /\
   0 <= centiHMS a + centiHMS b)
  \/ (centiYM a + centiYM b <= 0 /\ centiDays a + centiDays b <= 0 /\
      centiHMS a + centiHMS b <= 0).

(** The summed days, with the hours folded in when they pass 32767, stay
    within the public field: [rippleUp] does not enter its floating-point
    section. *)
Definition noMonthCollapse (a b : Period) : Prop :=
  foldedDays (Z.abs (centiDays a + centiDays b))
             (Z.abs (centiHMS a + centiHMS b)) <= MaxInt16.


Lemma Add_paths
  (String64 : period64 -> string) (monthCollapse : Z -> Z * Z * Z * Z)
  (a b : Period) :
  Add String64 monthCollapse a b =
    if fastPath a b then simpleAdd a b
    else nonTrivialAdd String64 monthCollapse a b.
Proof. reflexivity. Qed.

Lemma fastPath_same_sign (a b : Period) :
  fastPath a b = true -> Sign a = Sign b.
Proof.
  unfold fastPath. intros H. apply andb_true_iff in H.
  apply Z.eqb_eq. tauto.
Qed.




Definition oneYear : Period := mkPeriod 1 0 0 0 0 0 0 NoFraction.


(** ** Overflow on Add and Scale *)

(** The working value [nonTrivialAdd] hands to [toPeriod]. *)
Definition addedP64 (monthCollapse : Z -> Z * Z * Z * Z) (a b : Period)
  : period64 :=
  let cym := add64 (centiYM a) (centiYM b) in
  let cd := add64 (centiDays a) (centiDays b) in
  let chms := add64 (centiHMS a) (centiHMS b) in
  if (cym >=? 0) && (cd >=? 0) && (chms >=? 0)
  then p64Of monthCollapse cym cd chms false
  else p64Of monthCollapse (neg64 cym) (neg64 cd) (neg64 chms) true.

(** The working value the exact path of [rationalScale64] hands to
    [toPeriod]. *)
Definition scaledP64 (monthCollapse : Z -> Z * Z * Z * Z) (p : Period)
  (m d : Z) : period64 :=
  p64Of monthCollapse (quot64 (scaledYM p m) d) (quot64 (scaledDays p m) d)
        (quot64 (scaledHMS p m) d) (snd (absNeg p)).

Lemma nonTrivialAdd_narrows
  (String64 : period64 -> string) (monthCollapse : Z -> Z * Z * Z * Z)
  (a b : Period) :
  nonTrivialAdd String64 monthCollapse a b =
    fst (toPeriod String64 (addedP64 monthCollapse a b)).
Proof.
  unfold nonTrivialAdd, addedP64.
  destruct ((add64 (centiYM a) (centiYM b) >=? 0)
            && (add64 (centiDays a) (centiDays b) >=? 0)
            && (add64 (centiHMS a) (centiHMS b) >=? 0)); reflexivity.
Qed.

Section OverflowFacts.

Variable String64 : period64 -> string.
Variable monthCollapse : Z -> Z * Z * Z * Z.
Variable daysPerMonthE6 : Z.
Variable oneE6 : Z.
Variable NewOf : Z -> Period * bool.
Variable condNegate : Period -> bool -> Period.
Variable Normalise : Period -> bool -> Period.
Variable Simplify : Period -> bool -> Period.
Variable Float32 : Type.
Variable ratOfFloat : Float32 -> option (Z * Z).
Variable unableToScale : Period -> Float32 -> string.

Lemma Add_drops_overflow (a b : Period) :
  fastPath a b = false ->
  overflowFields (addedP64 monthCollapse a b) <> [] ->
  Add String64 monthCollapse a b = zeroPeriod.
Proof.
  intros F O. rewrite Add_paths, F, nonTrivialAdd_narrows.
  destruct (toPeriod_cases String64 (addedP64 monthCollapse a b))
    as [[N _]|[_ E]]; [contradiction|].
  rewrite E. reflexivity.
Qed.

Lemma rationalScale64_returns_overflow (p : Period) (m d : Z) :
  d <> 0 -> exactPath p m d ->
  overflowFields (scaledP64 monthCollapse p m d) <> [] ->
  rationalScale64 String64 monthCollapse daysPerMonthE6 oneE6 NewOf
                  condNegate Normalise Simplify p m d =
    Return (zeroPeriod,
            Some (overflowMessage
                    (errorLabel String64 (scaledP64 monthCollapse p m d))
                    (overflowFields (scaledP64 monthCollapse p m d)))).
Proof.
  intros Hd Hx O.
  destruct (rationalScale64_exact String64 monthCollapse daysPerMonthE6 oneE6
              NewOf condNegate Normalise Simplify p m d Hd Hx) as [_ R].
  rewrite R. unfold scaledP64 in *.
  match goal with
  | |- context [toPeriod String64 ?q] =>
      destruct (toPeriod_cases String64 q) as [[N _]|[_ E]];
        [contradiction|]
  end.
  rewrite E. reflexivity.
Qed.

Lemma Scale_drops_overflow (p : Period) (factor : Float32) (m d : Z) :
  ratOfFloat factor = Some (m, d) ->
  d <> 0 -> exactPath p m d ->
  overflowFields (scaledP64 monthCollapse p m d) <> [] ->
  Scale String64 monthCollapse daysPerMonthE6 oneE6 NewOf condNegate
        Normalise Simplify Float32 ratOfFloat unableToScale p factor =
    Return zeroPeriod.
Proof.
  intros Q Hd Hx O. unfold Scale, ScaleWithOverflowCheck. rewrite Q.
  rewrite (rationalScale64_returns_overflow p m d Hd Hx O). reflexivity.
Qed.

End OverflowFacts.

(** C2, as amended.  [Add] and [Scale] return a Period and nothing else.
    When the normalised sum of [Add]'s general path has a field above the
    public maximum, [Add] returns the zero Period; when the exact path of
    scaling has one, [Scale] returns the zero Period as well.  The overflow
    error reaches the caller of [rationalScale64] (hence of [RationalScale]
    and [ScaleWithOverflowCheck]) only: on the exact path it returns the zero
    Period together with the error naming the offending fields. *)
Theorem overflow_is_surfaced_by_checked_scaling_only
  (String64 : period64 -> string) (monthCollapse : Z -> Z * Z * Z * Z)
  (daysPerMonthE6 oneE6 : Z) (NewOf : Z -> Period * bool)
  (condNegate Normalise Simplify : Period -> bool -> Period)
  (Float32 : Type) (ratOfFloat : Float32 -> option (Z * Z))
  (unableToScale : Period -> Float32 -> string) :
  (forall a b : Period,
     fastPath a b = false ->
     overflowFields (addedP64 monthCollapse a b) <> [] ->
     Add String64 monthCollapse a b = zeroPeriod)
  /\
  (forall (p : Period) (factor : Float32) (m d : Z),
     ratOfFloat factor = Some (m, d) ->
     d <> 0 -> exactPath p m d ->
     overflowFields (scaledP64 monthCollapse p m d) <> [] ->
     Scale String64 monthCollapse daysPerMonthE6 oneE6 NewOf condNegate
           Normalise Simplify Float32 ratOfFloat unableToScale p factor =
       Return zeroPeriod
     /\
     ScaleWithOverflowCheck String64 monthCollapse daysPerMonthE6 oneE6 NewOf
           condNegate Normalise Simplify Float32 ratOfFloat unableToScale
           p factor =
       Return (zeroPeriod,
               Some (overflowMessage
                       (errorLabel String64 (scaledP64 monthCollapse p m d))
                       (overflowFields (scaledP64 monthCollapse p m d))))).
Proof.
  split.
  - intros a b. apply Add_drops_overflow.
  - intros p factor m d Q Hd Hx O. split.
    + apply (Scale_drops_overflow String64 monthCollapse daysPerMonthE6 oneE6
               NewOf condNegate Normalise Simplify Float32 ratOfFloat
               unableToScale p factor m d); assumption.
    + unfold ScaleWithOverflowCheck. rewrite Q.
      apply rationalScale64_returns_overflow; assumption.
Qed.

(** 32767 years and half a day, plus twelve months and half a second: the
    fractions sit on different fields, the year total is 32768. *)
Definition maxYearsHalfDay : Period := mkPeriod 32767 0 0 0 0 0 50 Day.
Definition yearOfMonthsHalfSecond : Period :=
  mkPeriod 0 12 0 0 0 0 50 Second.

Lemma overflow_is_surfaced_by_checked_scaling_only_witness :
  fastPath maxYearsHalfDay yearOfMonthsHalfSecond = false /\
  overflowFields
    (addedP64 Sample.monthCollapse maxYearsHalfDay yearOfMonthsHalfSecond)
    = ["years"%string] /\
  Add Sample.String64 Sample.monthCollapse maxYearsHalfDay
      yearOfMonthsHalfSecond = zeroPeriod.
Proof.
  split; [reflexivity|]. split; [vm_compute; reflexivity|].
  apply (proj1 (overflow_is_surfaced_by_checked_scaling_only
                  Sample.String64 Sample.monthCollapse 30436875 1000000
                  (fun _ => (zeroPeriod, true)) (fun q _ => q)
                  (fun q _ => q) (fun q _ => q) unit (fun _ => None)
                  (fun _ _ => EmptyString))
               maxYearsHalfDay yearOfMonthsHalfSecond).
  - reflexivity.
  - vm_compute. discriminate.
Defined.

(** On both paths of [Add] a result beyond the public range comes back as a
    plain Period: the zero Period on the general path, although [toPeriod]
    reported "years"; a wrapped year count on the fast path. *)
Definition maxYears : Period := mkPeriod 32767 0 0 0 0 0 0 NoFraction.

Lemma Add_overflow_counterexample :
  (validPeriod maxYearsHalfDay /\ validPeriod yearOfMonthsHalfSecond /\
   toPeriod Sample.String64
     (addedP64 Sample.monthCollapse maxYearsHalfDay yearOfMonthsHalfSecond) =
     (zeroPeriod, Some "P: integer overflow occurred in years"%string) /\
   Add Sample.String64 Sample.monthCollapse maxYearsHalfDay
       yearOfMonthsHalfSecond = zeroPeriod)
  /\
  (validPeriod maxYears /\ validPeriod oneYear /\
   Add Sample.String64 Sample.monthCollapse maxYears oneYear =
     mkPeriod (-32768) 0 0 0 0 0 0 NoFraction).
Proof.
  split; (split; [apply validPeriod_dec_sound; vm_compute; reflexivity|]);
    (split; [apply validPeriod_dec_sound; vm_compute; reflexivity|]).
  - split; vm_compute; reflexivity.
  - vm_compute; reflexivity.
Qed.

(** ** Scaling by one *)

Lemma IsNegative_nonPositive (p : Period) :
  signInvariant p -> IsNegative p = true -> nonPositive p.
Proof.
  intros [N|P] I; [|exact P].
  apply IsNegative_false in N. congruence.
Qed.

Lemma centi_Negate (p : Period) :
  inRange p ->
  centiYM (Negate p) = - centiYM p /\
  centiDays (Negate p) = - centiDays p /\
  centiHMS (Negate p) = - centiHMS p.
Proof.
  unfold inRange, Negate, centiYM, centiDays, centiHMS, MaxInt16.
  destruct p as [y mo d h mi s f fp].
  cbn [years months days hours minutes seconds fraction fpart].
  rewrite !Z.abs_le. intros R.
  rewrite !int16_small by (unfold in16, MinInt16, MaxInt16; lia).
  rewrite int8_small by (unfold in8; lia).
  destruct fp; lia.
Qed.

(** The fraction of a Period enters one group only: at most one of the three
    totals is not a multiple of 100. *)
Lemma centi_one_group (p : Period) :
  (centiDays p mod 100 = 0 /\ centiHMS p mod 100 = 0) \/
  (centiYM p mod 100 = 0 /\ centiHMS p mod 100 = 0) \/
  (centiYM p mod 100 = 0 /\ centiDays p mod 100 = 0).
Proof.
  unfold centiYM, centiDays, centiHMS.
  destruct (fpart p); rewrite ?Z.add_0_r, ?Z.mod_mul by lia; try tauto.
Qed.

Lemma splitFraction_YM (cym cd chms : Z) :
  (cd mod 100 = 0 /\ chms mod 100 = 0) \/
  (cym mod 100 = 0 /\ chms mod 100 = 0) \/
  (cym mod 100 = 0 /\ cd mod 100 = 0) ->
  let f := fst (splitFraction cym cd chms) in
  let fp := snd (splitFraction cym cd chms) in
  match fp with Year => f * 12 | Month => f | _ => 0 end = cym mod 100 /\
  match fp with Day => f | _ => 0 end = cd mod 100 /\
  match fp with Hour => f * 3600 | Minute => f * 60 | Second => f | _ => 0 end
    = chms mod 100.
Proof.
  unfold splitFraction.
  destruct (Z.eqb_spec (chms mod 100) 0) as [E1|E1];
  destruct (Z.eqb_spec (cd mod 100) 0) as [E2|E2];
  destruct (Z.eqb_spec (cym mod 100) 0) as [E3|E3];
  cbn [negb fst snd]; intros H; lia.
Qed.

Lemma narrow_small (r : period64) :
  0 <= years64 r <= MaxInt16 -> 0 <= months64 r <= MaxInt16 ->
  0 <= days64 r <= MaxInt16 -> 0 <= hours64 r <= MaxInt16 ->
  0 <= minutes64 r <= MaxInt16 -> 0 <= seconds64 r <= MaxInt16 ->
  0 <= fraction64 r <= 99 ->
  narrow r =
    if neg r
    then mkPeriod (- years64 r) (- months64 r) (- days64 r) (- hours64 r)
                  (- minutes64 r) (- seconds64 r) (- fraction64 r) (fpart64 r)
    else mkPeriod (years64 r) (months64 r) (days64 r) (hours64 r)
                  (minutes64 r) (seconds64 r) (fraction64 r) (fpart64 r).
Proof.
  intros Hy Hmo Hd Hh Hmi Hs Hf. unfold narrow. destruct (neg r).
  - rewrite !int16_neg64_small by assumption.
    unfold neg8. rewrite int8_small by (unfold in8; lia). reflexivity.
  - unfold MaxInt16 in *.
    rewrite !int16_small by (unfold in16, MinInt16, MaxInt16; lia).
    reflexivity.
Qed.

(** The totals [p64Of] was given can be read back from the narrowed value. *)
Lemma p64Of_totals
  (String64 : period64 -> string) (monthCollapse : Z -> Z * Z * Z * Z)
  (cym cd chms : Z) (ng : bool) :
  0 <= cym <= big -> 0 <= cd <= big -> 0 <= chms <= big ->
  (cd mod 100 = 0 /\ chms mod 100 = 0) \/
  (cym mod 100 = 0 /\ chms mod 100 = 0) \/
  (cym mod 100 = 0 /\ cd mod 100 = 0) ->
  cym / 1200 <= MaxInt16 -> cd / 100 <= MaxInt16 ->
  chms / 360000 <= MaxInt16 ->
  exists r,
    toPeriod String64 (p64Of monthCollapse cym cd chms ng) = (r, None) /\
    centiYM r = (if ng then - cym else cym) /\
    centiDays r = (if ng then - cd else cd) /\
    centiHMS r = (if ng then - chms else chms).
Proof.
  intros Hym Hd Hs X Bym Bd Bhms.
  assert (H3600 : chms / 100 / 3600 = chms / 360000)
    by (rewrite Z.div_div by lia; reflexivity).
  assert (H12 : cym / 100 / 12 = cym / 1200)
    by (rewrite Z.div_div by lia; reflexivity).
  assert (NF : (chms / 100 / 3600 >? MaxInt16) = false)
    by (apply gtb_false; lia).
  assert (FD : foldedDays cd chms = cd / 100)
    by (unfold foldedDays; rewrite NF; reflexivity).
  assert (FH : foldedHours chms = chms / 100 / 3600)
    by (unfold foldedHours; rewrite NF; reflexivity).
  pose proof (splitFraction_YM cym cd chms X) as SF. cbv zeta in SF.
  assert (SR : 0 <= fst (splitFraction cym cd chms) <= 99).
  { unfold splitFraction.
    destruct (chms mod 100 =? 0), (cd mod 100 =? 0), (cym mod 100 =? 0);
      cbn [negb fst]; Z.div_mod_to_equations; lia. }
  rewrite p64Of_nonneg by (try assumption; rewrite FD; exact Bd).
  rewrite FD, FH.
  set (f := fst (splitFraction cym cd chms)) in *.
  set (fp := snd (splitFraction cym cd chms)) in *.
  clearbody f fp.
  set (R := mkPeriod64 _ _ _ _ _ _ _ _ _ _).
  assert (N : narrow R =
    if ng
    then mkPeriod (- (cym / 100 / 12)) (- ((cym / 100) mod 12))
           (- (cd / 100)) (- (chms / 100 / 3600))
           (- (chms / 100 / 60 - chms / 100 / 3600 * 60))
           (- ((chms / 100) mod 60)) (- f) fp
    else mkPeriod (cym / 100 / 12) ((cym / 100) mod 12)
           (cd / 100) (chms / 100 / 3600)
           (chms / 100 / 60 - chms / 100 / 3600 * 60)
           ((chms / 100) mod 60) f fp).
  { rewrite narrow_small; unfold R;
      cbn [years64 months64 days64 hours64 minutes64 seconds64 fraction64
           fpart64 neg]; try reflexivity; unfold MaxInt16, big in *;
      try (Z.div_mod_to_equations; lia). }
  exists (narrow R). split.
  - destruct (toPeriod_cases String64 R) as [[_ E]|[O _]]; [exact E|].
    exfalso. apply O. apply overflowFields_nil. unfold R.
    cbn [years64 months64 days64 hours64 minutes64 seconds64 fraction64].
    unfold MaxInt16, big in *. repeat split; Z.div_mod_to_equations; lia.
  - rewrite N. clear N R NF FD FH.
    destruct SF as (Sym & Sd & Shms).
    unfold centiYM, centiDays, centiHMS.
    destruct ng; cbn [years months days hours minutes seconds fraction fpart].
    all: clear H3600 H12 Bym Bd Bhms X; unfold big in *;
      destruct fp; repeat split; Z.div_mod_to_equations; lia.
Qed.

Lemma centi_nonNegative (p : Period) :
  nonNegative p -> 0 <= centiYM p /\ 0 <= centiDays p /\ 0 <= centiHMS p.
Proof.
  unfold nonNegative, centiYM, centiDays, centiHMS.
  destruct p as [y mo d h mi s f fp].
  cbn [years months days hours minutes seconds fraction fpart].
  intros N. destruct fp; lia.
Qed.

Lemma centi_nonPositive (p : Period) :
  nonPositive p -> centiYM p <= 0 /\ centiDays p <= 0 /\ centiHMS p <= 0.
Proof.
  unfold nonPositive, centiYM, centiDays, centiHMS.
  destruct p as [y mo d h mi s f fp].
  cbn [years months days hours minutes seconds fraction fpart].
  intros N. destruct fp; lia.
Qed.

Lemma centiDays_whole_bound (p : Period) :
  inRange p -> Z.abs (centiDays p) / 100 <= MaxInt16.
Proof.
  unfold inRange, centiDays, MaxInt16.
  destruct p as [y mo d h mi s f fp].
  cbn [years months days hours minutes seconds fraction fpart].
  rewrite !Z.abs_le. intros R.
  assert (B : Z.abs (d * 100 + match fp with Day => f | _ => 0 end)
              <= 3276799) by (destruct fp; lia).
  Z.div_mod_to_equations. lia.
Qed.

(** What [absNeg] hands to the centi-unit combiners: the magnitudes of the
    three totals, and the sign apart. *)
Lemma absNeg_totals (p : Period) :
  validPeriod p ->
  snd (absNeg p) = IsNegative p /\
  centiYM (fst (absNeg p)) = Z.abs (centiYM p) /\
  centiDays (fst (absNeg p)) = Z.abs (centiDays p) /\
  centiHMS (fst (absNeg p)) = Z.abs (centiHMS p) /\
  (if IsNegative p
   then centiYM p <= 0 /\ centiDays p <= 0 /\ centiHMS p <= 0
   else 0 <= centiYM p /\ 0 <= centiDays p /\ 0 <= centiHMS p).
Proof.
  intros (R & _ & I). unfold absNeg.
  destruct (IsNegative p) eqn:N; cbn [fst snd].
  - pose proof (IsNegative_nonPositive p I N) as NP.
    destruct (centi_nonPositive p NP) as (A & B & C).
    destruct (centi_Negate p R) as (-> & -> & ->).
    repeat split; try assumption; lia.
  - apply IsNegative_false in N.
    destruct (centi_nonNegative p N) as (A & B & C).
    repeat split; try assumption; lia.
Qed.

(** C7, as amended.  For every valid Period whose year-month total stays
    within 32767 years and whose hour-minute-second total stays within 32767
    hours, [RationalScale(1, 1)] succeeds, with a nil error, and the returned
    Period has the same three centi-unit totals (year-month, day,
    hour-minute-second) as the argument. *)
Theorem RationalScale_identity_within_range
  (String64 : period64 -> string) (monthCollapse : Z -> Z * Z * Z * Z)
  (daysPerMonthE6 oneE6 : Z) (NewOf : Z -> Period * bool)
  (condNegate Normalise Simplify : Period -> bool -> Period)
  (p : Period) :
  validPeriod p ->
  Z.abs (centiYM p) / 1200 <= MaxInt16 ->
  Z.abs (centiHMS p) / 360000 <= MaxInt16 ->
  exists r,
    RationalScale String64 monthCollapse daysPerMonthE6 oneE6 NewOf
                  condNegate Normalise Simplify p 1 1 = Return (r, None) /\
    centiYM r = centiYM p /\ centiDays r = centiDays p /\
    centiHMS r = centiHMS p.
Proof.
  intros V Bym Bhms.
  destruct (absNeg_totals p V) as (Ng & Eym & Ed & Ehms & Sg).
  destruct V as (R & _ & _).
  destruct (centi_bounds p R) as (Cym & Cd & Chms).
  pose proof (centiDays_whole_bound p R) as Bd.
  unfold RationalScale. change (int64 1) with 1.
  assert (Sym : scaledYM p 1 = Z.abs (centiYM p)).
  { unfold scaledYM, mul64. rewrite Eym, Z.mul_1_r.
    apply int64_small. unfold halfBig in *. bnd. }
  assert (Sd : scaledDays p 1 = Z.abs (centiDays p)).
  { unfold scaledDays, mul64. rewrite Ed, Z.mul_1_r.
    apply int64_small. unfold halfBig in *. bnd. }
  assert (Shms : scaledHMS p 1 = Z.abs (centiHMS p)).
  { unfold scaledHMS, mul64. rewrite Ehms, Z.mul_1_r.
    apply int64_small. unfold halfBig in *. bnd. }
  assert (Q : forall x, Z.abs x <= halfBig -> quot64 (Z.abs x) 1 = Z.abs x).
  { intros x Hx. unfold quot64. rewrite Z.quot_1_r.
    apply int64_small. unfold halfBig in *. bnd. }
  assert (X : exactPath p 1 1).
  { unfold exactPath, rem64. rewrite !Z.rem_1_r. tauto. }
  destruct (rationalScale64_exact String64 monthCollapse daysPerMonthE6 oneE6
              NewOf condNegate Normalise Simplify p 1 1 ltac:(lia) X)
    as [_ E].
  rewrite E, Sym, Sd, Shms, !Q, Ng by assumption.
  destruct (p64Of_totals String64 monthCollapse (Z.abs (centiYM p))
              (Z.abs (centiDays p)) (Z.abs (centiHMS p)) (IsNegative p))
    as (r & Er & Rym & Rd & Rhms); try assumption;
    try (unfold big, halfBig in *; lia).
  { rewrite <- Eym, <- Ed, <- Ehms. apply centi_one_group. }
  exists r. split; [rewrite Er; reflexivity|].
  rewrite Rym, Rd, Rhms.
  destruct (IsNegative p); lia.
Qed.


(** One year, two months, three days, 4:05:06 and seven hundredths of a
    minute. *)
Definition mixedPeriod : Period := mkPeriod 1 2 3 4 5 6 7 Minute.

Lemma RationalScale_identity_within_range_witness :
  validPeriod mixedPeriod /\
  Z.abs (centiYM mixedPeriod) / 1200 <= MaxInt16 /\
  Z.abs (centiHMS mixedPeriod) / 360000 <= MaxInt16 /\
  exists r,
    RationalScale Sample.String64 Sample.monthCollapse 30436875 1000000
                  (fun _ => (zeroPeriod, true)) (fun q _ => q)
                  (fun q _ => q) (fun q _ => q) mixedPeriod 1 1
      = Return (r, None) /\
    centiYM r = centiYM mixedPeriod /\ centiDays r = centiDays mixedPeriod /\
    centiHMS r = centiHMS mixedPeriod.
Proof.
  assert (V : validPeriod mixedPeriod)
    by (apply validPeriod_dec_sound; vm_compute; reflexivity).
  assert (B1 : Z.abs (centiYM mixedPeriod) / 1200 <= MaxInt16)
    by (vm_compute; discriminate).
  assert (B2 : Z.abs (centiHMS mixedPeriod) / 360000 <= MaxInt16)
    by (vm_compute; discriminate).
  split; [exact V|]. split; [exact B1|]. split; [exact B2|].
  apply (RationalScale_identity_within_range Sample.String64
           Sample.monthCollapse 30436875 1000000
           (fun _ => (zeroPeriod, true)) (fun q _ => q) (fun q _ => q)
           (fun q _ => q) mixedPeriod V B1 B2).
Defined.

(** 32767 years and twelve months: the months are carried into a 32768th
    year and the narrowing fails. *)
Definition maxYearsTwelveMonths : Period :=
  mkPeriod 32767 12 0 0 0 0 0 NoFraction.

Lemma RationalScale_identity_counterexample :
  validPeriod maxYearsTwelveMonths /\
  RationalScale Sample.String64 Sample.monthCollapse 30436875 1000000
                (fun _ => (zeroPeriod, true)) (fun q _ => q)
                (fun q _ => q) (fun q _ => q) maxYearsTwelveMonths 1 1
    = Return (zeroPeriod, Some "P: integer overflow occurred in years"%string).
Proof.
  split; [apply validPeriod_dec_sound; vm_compute; reflexivity|].
  vm_compute. reflexivity.
Qed.

(** ** Widening: [toPeriod64] *)

Definition toPeriod64 (period : Period) (input : string) : period64 :=
  if IsNegative period then
    mkPeriod64 (int64 (int16 (- years period)))
               (int64 (int16 (- months period)))
               (int64 (int16 (- days period)))
               (int64 (int16 (- hours period)))
               (int64 (int16 (- minutes period)))
               (int64 (int16 (- seconds period)))
               (int8 (- fraction period)) (fpart period) true input
  else
    mkPeriod64 (int64 (years period)) (int64 (months period))
               (int64 (days period)) (int64 (hours period))
               (int64 (minutes period)) (int64 (seconds period))
               (fraction period) (fpart period) false input.

(** The fields are int16 values and the fraction has two decimal places. *)
Definition representable (p : Period) : Prop :=
  in16 (years p) /\ in16 (months p) /\ in16 (days p) /\ in16 (hours p) /\
  in16 (minutes p) /\ in16 (seconds p) /\ -99 <= fraction p <= 99.

Lemma int16_range (x : Z) : in16 (int16 x).
Proof.
  unfold in16, MinInt16, MaxInt16, int16.
  pose proof (wrap_range 16 x ltac:(lia)) as B.
  change (2 ^ (16 - 1)) with 32768 in B. lia.
Qed.

Lemma widen_negated_field (f : Z) :
  in16 f ->
  int64 (int16 (- f)) <= MaxInt16 /\
  int16 (neg64 (int64 (int16 (- f)))) = f.
Proof.
  intros H. pose proof (int16_range (- f)) as R.
  rewrite (int64_small (int16 (- f)))
    by (unfold in16, in64, MinInt16, MaxInt16, MinInt64, MaxInt64 in *; lia).
  split; [unfold in16 in R; lia|].
  unfold neg64. rewrite int64_small
    by (unfold in16, in64, MinInt16, MaxInt16, MinInt64, MaxInt64 in *; lia).
  unfold in16, MinInt16, MaxInt16 in H.
  assert (C : f = -32768 \/ -32767 <= f <= 32767) by lia.
  destruct C as [->|C]; [vm_compute; reflexivity|].
  rewrite (int16_small (- f)) by (unfold in16, MinInt16, MaxInt16; lia).
  rewrite Z.opp_involutive.
  apply int16_small. unfold in16, MinInt16, MaxInt16. lia.
Qed.

Lemma widen_field (f : Z) :
  in16 f -> int64 f <= MaxInt16 /\ int16 (int64 f) = f.
Proof.
  intros H.
  rewrite int64_small
    by (unfold in16, in64, MinInt16, MaxInt16, MinInt64, MaxInt64 in *; lia).
  split; [unfold in16 in H; lia|apply int16_small; exact H].
Qed.

(** X1. Widening a Period with [toPeriod64] and narrowing it again with
    [toPeriod] gives the Period back, with a nil error, whatever the input
    label: this holds for every Period whose fields are int16 values and
    whose fraction lies within -99..99, the most negative field value
    included. *)
Theorem toPeriod64_toPeriod_round_trip
  (String64 : period64 -> string) (p : Period) (input : string) :
  representable p ->
  toPeriod String64 (toPeriod64 p input) = (p, None).
Proof.
  intros (Hy & Hmo & Hd & Hh & Hmi & Hs & Hf).
  destruct (toPeriod_cases String64 (toPeriod64 p input)) as [[_ E]|[O _]].
  - rewrite E. f_equal. unfold narrow, toPeriod64.
    destruct (IsNegative p);
      cbn [neg years64 months64 days64 hours64 minutes64 seconds64
           fraction64 fpart64].
    + rewrite (proj2 (widen_negated_field _ Hy)),
        (proj2 (widen_negated_field _ Hmo)), (proj2 (widen_negated_field _ Hd)),
        (proj2 (widen_negated_field _ Hh)), (proj2 (widen_negated_field _ Hmi)),
        (proj2 (widen_negated_field _ Hs)).
      unfold neg8. rewrite (int8_small (- fraction p)) by (unfold in8; lia).
      rewrite Z.opp_involutive, int8_small by (unfold in8; lia).
      destruct p; reflexivity.
    + rewrite (proj2 (widen_field _ Hy)), (proj2 (widen_field _ Hmo)),
        (proj2 (widen_field _ Hd)), (proj2 (widen_field _ Hh)),
        (proj2 (widen_field _ Hmi)), (proj2 (widen_field _ Hs)).
      destruct p; reflexivity.
  - exfalso. apply O. apply overflowFields_nil. unfold toPeriod64.
    destruct (IsNegative p);
      cbn [neg years64 months64 days64 hours64 minutes64 seconds64
           fraction64 fpart64].
    + rewrite (int8_small (- fraction p)) by (unfold in8; lia).
      repeat split; try (apply widen_negated_field; assumption). lia.
    + repeat split; try (apply widen_field; assumption). lia.
Qed.

(** The most negative year count, with a negative fraction of a day. *)
Definition minYears : Period := mkPeriod (-32768) 0 (-3) 0 0 0 (-25) Day.

Lemma toPeriod64_toPeriod_round_trip_witness :
  representable minYears /\
  toPeriod Sample.String64 (toPeriod64 minYears "P-32768Y-3.25D") =
    (minYears, None).
Proof.
  assert (R : representable minYears)
    by (unfold representable, in16; cbn; unfold MinInt16, MaxInt16; lia).
  split; [exact R|].
  apply (toPeriod64_toPeriod_round_trip Sample.String64 minYears
           "P-32768Y-3.25D" R).
Defined.

(** X2. For a Period that satisfies the sign invariant and whose fields lie
    within -32767..32767, [toPeriod64] establishes the invariant of the
    working value: every magnitude and the fraction are non-negative, and
    [neg] tells whether the Period was negative. *)
Theorem toPeriod64_magnitudes
  (p : Period) (input : string) :
  inRange p -> signInvariant p ->
  nonNegative64 (toPeriod64 p input) /\
  neg (toPeriod64 p input) = IsNegative p /\
  years64 (toPeriod64 p input) = Z.abs (years p) /\
  months64 (toPeriod64 p input) = Z.abs (months p) /\
  days64 (toPeriod64 p input) = Z.abs (days p) /\
  hours64 (toPeriod64 p input) = Z.abs (hours p) /\
  minutes64 (toPeriod64 p input) = Z.abs (minutes p) /\
  seconds64 (toPeriod64 p input) = Z.abs (seconds p) /\
  fraction64 (toPeriod64 p input) = Z.abs (fraction p).
Proof.
  unfold inRange, MaxInt16. rewrite !Z.abs_le. intros R I.
  unfold toPeriod64, nonNegative64.
  destruct (IsNegative p) eqn:N;
    cbn [neg years64 months64 days64 hours64 minutes64 seconds64 fraction64].
  - pose proof (IsNegative_nonPositive p I N) as NP. unfold nonPositive in NP.
    rewrite !int16_small by (unfold in16, MinInt16, MaxInt16; lia).
    rewrite !int64_small by (unfold in64, MinInt64, MaxInt64; lia).
    rewrite int8_small by (unfold in8; lia). lia.
  - apply IsNegative_false in N. unfold nonNegative in N.
    rewrite !int64_small by (unfold in64, MinInt64, MaxInt64; lia). lia.
Qed.

Definition minusDayAndHalf : Period := mkPeriod 0 0 (-1) 0 0 0 (-50) Day.

Lemma toPeriod64_magnitudes_witness :
  inRange minusDayAndHalf /\ signInvariant minusDayAndHalf /\
  nonNegative64 (toPeriod64 minusDayAndHalf "") /\
  neg (toPeriod64 minusDayAndHalf "") = true.
Proof.
  assert (V : validPeriod minusDayAndHalf)
    by (apply validPeriod_dec_sound; vm_compute; reflexivity).
  destruct V as (R & _ & I).
  split; [exact R|]. split; [exact I|].
  destruct (toPeriod64_magnitudes minusDayAndHalf "" R I) as (N & G & _).
  split; [exact N|exact G].
Defined.

(** ** Ripple-up without month collapse *)

(** The total of the hour, minute and second fields, in seconds. *)
Definition hmsOf (p : period64) : Z :=
  hours64 p * 3600 + minutes64 p * 60 + seconds64 p.

(** The days [rippleUp] borrows when that total is negative. *)
Definition borrowedDays (hms : Z) : Z :=
  if hms <? 0 then Z.quot hms 86400 - 1 else 0.

Definition hmsAfterBorrow (p : period64) : Z :=
  hmsOf p - borrowedDays (hmsOf p) * 86400.

(** The hours are folded into days: not in precise mode, or above 32767. *)
Definition foldsHours (p : period64) (precise : bool) : bool :=
  negb precise || (hmsAfterBorrow p / 3600 >? MaxInt16).

Definition daysAfterFold (p : period64) (precise : bool) : Z :=
  if foldsHours p precise
  then days64 p + borrowedDays (hmsOf p) + hmsAfterBorrow p / 3600 / 24
  else days64 p + borrowedDays (hmsOf p).

Definition hoursAfterFold (p : period64) (precise : bool) : Z :=
  if foldsHours p precise
  then (hmsAfterBorrow p / 3600) mod 24
  else hmsAfterBorrow p / 3600.

(** The fields are far from the int64 bounds, months and years are not
    negative, and the day count stays within 0..32767 after the borrow and
    the fold: [rippleUp] does not enter its floating-point section. *)
Definition ripplesExactly (p : period64) (precise : bool) : Prop :=
  Z.abs (hours64 p) <= big /\ Z.abs (minutes64 p) <= big /\
  Z.abs (seconds64 p) <= big /\ Z.abs (days64 p) <= big /\
  0 <= months64 p <= big /\ 0 <= years64 p <= big /\
  0 <= daysAfterFold p precise <= MaxInt16.

Lemma borrow_range (hms : Z) :
  Z.abs hms <= 4 * big * 3600 ->
  (0 <= hms /\ borrowedDays hms = 0) \/
  (hms < 0 /\ 0 < hms - borrowedDays hms * 86400 <= 86400 /\
   - (4 * big) <= borrowedDays hms < 0).
Proof.
  unfold borrowedDays, big. intros B.
  destruct (Z.ltb_spec hms 0) as [N|N]; [right|left; lia].
  split; [exact N|]. Z.quot_rem_to_equations. lia.
Qed.

Lemma rippleUp_exact (C : Z -> Z * Z * Z * Z) (p : period64) (precise : bool) :
  ripplesExactly p precise ->
  rippleUp C p precise =
    mkPeriod64 (years64 p + months64 p / 12) (months64 p mod 12)
      (daysAfterFold p precise) (hoursAfterFold p precise)
      (hmsAfterBorrow p / 60 - hmsAfterBorrow p / 3600 * 60)
      (hmsAfterBorrow p mod 60)
      (fraction64 p) (fpart64 p) (neg p) (input p).
Proof.
  unfold ripplesExactly, daysAfterFold, hoursAfterFold, foldsHours,
    hmsAfterBorrow, hmsOf.
  rewrite !Z.abs_le. unfold big.
  intros (Hh & Hmi & Hs & Hd & Hmo & Hy & Hdd).
  unfold rippleUp.
  rewrite (mul64_small (hours64 p) 3600), (mul64_small (minutes64 p) 60) by bnd.
  rewrite (add64_small (hours64 p * 3600)) by bnd.
  rewrite (add64_small (hours64 p * 3600 + minutes64 p * 60)) by bnd.
  set (hms := hours64 p * 3600 + minutes64 p * 60 + seconds64 p) in *.
  assert (Bh : Z.abs hms <= 4 * big * 3600) by (unfold big, hms; lia).
  clearbody hms. clear Hh Hmi Hs.
  pose proof (borrow_range hms Bh) as BR. unfold big in *.
  assert (Q : quot64 hms 86400 = Z.quot hms 86400).
  { unfold quot64. apply int64_small.
    unfold in64, MinInt64, MaxInt64. Z.quot_rem_to_equations. lia. }
  rewrite Q. clear Q.
  assert (DD : (if hms <? 0
                then (add64 (days64 p) (sub64 (Z.quot hms 86400) 1),
                      sub64 hms (mul64 (sub64 (Z.quot hms 86400) 1) 86400))
                else (days64 p, hms))
               = (days64 p + borrowedDays hms, hms - borrowedDays hms * 86400)).
  { unfold borrowedDays in *. destruct (Z.ltb_spec hms 0) as [N|N].
    - destruct BR as [[B _]|(_ & B1 & B2)]; [lia|].
      rewrite (sub64_small (Z.quot hms 86400) 1) by bnd.
      rewrite mul64_small by bnd. rewrite sub64_small by bnd.
      rewrite add64_small by bnd. reflexivity.
    - f_equal; lia. }
  rewrite DD. clear DD.
  set (bd := borrowedDays hms) in *.
  set (hms1 := hms - bd * 86400) in *.
  assert (H1 : 0 <= hms1 <= 4 * big * 3600).
  { unfold big. destruct BR as [[B E]|(_ & B1 & B2)]; unfold hms1; lia. }
  assert (Bbd : - (4 * big) <= bd <= 0).
  { unfold big. destruct BR as [[B E]|(_ & B1 & B2)]; lia. }
  unfold big in *. clearbody hms1 bd. clear BR Bh.
  cbv beta iota zeta.
  rewrite (quot64_nonneg hms1 3600), (quot64_nonneg hms1 60),
          (rem64_nonneg hms1 60) by bnd.
  rewrite (mul64_small (hms1 / 3600) 60) by bnd.
  rewrite (sub64_small (hms1 / 60)) by bnd.
  rewrite (quot64_nonneg (hms1 / 3600) 24) by bnd.
  rewrite (rem64_nonneg (hms1 / 3600) 24) by bnd.
  destruct (Z.ltb_spec ((hms1 / 3600) mod 24) 0) as [N|_]; [bnd|].
  rewrite (add64_small (days64 p + bd)) by bnd.
  set (fold := negb precise || (hms1 / 3600 >? MaxInt16)) in *.
  set (d2 := if fold then days64 p + bd + hms1 / 3600 / 24
             else days64 p + bd) in *.
  set (h2 := if fold then (hms1 / 3600) mod 24 else hms1 / 3600).
  replace (if fold
           then (days64 p + bd + hms1 / 3600 / 24, (hms1 / 3600) mod 24)
           else (days64 p + bd, hms1 / 3600)) with (d2, h2)
    by (unfold d2, h2; destruct fold; reflexivity).
  cbv beta iota zeta.
  destruct (Z.gtb_spec d2 MaxInt16) as [N|_]; [lia|].
  destruct (Z.ltb_spec d2 0) as [N|_]; [lia|].
  cbn [orb]. cbv beta iota zeta.
  destruct (Z.eqb_spec (months64 p) 0) as [E|E]; cbn [negb]; cbv beta iota zeta.
  - rewrite E. change (0 / 12) with 0. change (0 mod 12) with 0.
    rewrite Z.add_0_r. reflexivity.
  - rewrite (quot64_nonneg (months64 p) 12) by bnd.
    rewrite (rem64_nonneg (months64 p) 12) by bnd.
    rewrite (add64_small (years64 p)) by bnd. reflexivity.
Qed.

(** X3. When [rippleUp] does not enter its floating-point section (fields
    far from the int64 bounds, months and years not negative, day count
    within 0..32767 after borrow and fold), its result is in canonical
    ranges: months 0..11, minutes and seconds 0..59, hours 0..32767 and
    below 24 when not in precise mode, days 0..32767, years not negative.
    This also holds when the hour, minute or second fields come in negative:
    whole days are borrowed. *)
Theorem rippleUp_canonical_ranges
  (monthCollapse : Z -> Z * Z * Z * Z) (p : period64) (precise : bool) :
  ripplesExactly p precise ->
  0 <= years64 (rippleUp monthCollapse p precise) /\
  0 <= months64 (rippleUp monthCollapse p precise) < 12 /\
  0 <= days64 (rippleUp monthCollapse p precise) <= MaxInt16 /\
  0 <= hours64 (rippleUp monthCollapse p precise) <= MaxInt16 /\
  (precise = false -> hours64 (rippleUp monthCollapse p precise) < 24) /\
  0 <= minutes64 (rippleUp monthCollapse p precise) < 60 /\
  0 <= seconds64 (rippleUp monthCollapse p precise) < 60.
Proof.
  intros R. rewrite (rippleUp_exact monthCollapse p precise R).
  cbn [years64 months64 days64 hours64 minutes64 seconds64].
  destruct R as (Hh & Hmi & Hs & Hd & Hmo & Hy & Hdd).
  unfold hoursAfterFold, foldsHours.
  assert (B : Z.abs (hmsOf p) <= 4 * big * 3600).
  { unfold hmsOf, big in *. lia. }
  assert (H1 : 0 <= hmsAfterBorrow p).
  { unfold hmsAfterBorrow. destruct (borrow_range (hmsOf p) B) as [[P E]|N]; lia. }
  set (hms1 := hmsAfterBorrow p) in *. clearbody hms1.
  unfold big, MaxInt16 in *.
  repeat split; try (Z.div_mod_to_equations; lia); try exact (proj1 Hdd);
    try exact (proj2 Hdd).
  - destruct precise; cbn [negb orb];
      [destruct (Z.gtb_spec (hms1 / 3600) 32767)|];
      Z.div_mod_to_equations; lia.
  - destruct precise; cbn [negb orb];
      [destruct (Z.gtb_spec (hms1 / 3600) 32767)|];
      Z.div_mod_to_equations; lia.
  - intros ->. cbn [negb orb]. Z.div_mod_to_equations. lia.
Qed.

(** X4. Under the same condition [rippleUp] keeps the year-month total in
    months and the day-hour-minute-second total in seconds (a day counted as
    24 hours), and leaves the fraction, its designator, the sign flag and the
    input label as they were. *)
Theorem rippleUp_keeps_totals
  (monthCollapse : Z -> Z * Z * Z * Z) (p : period64) (precise : bool) :
  ripplesExactly p precise ->
  years64 (rippleUp monthCollapse p precise) * 12
    + months64 (rippleUp monthCollapse p precise)
    = years64 p * 12 + months64 p /\
  ((days64 (rippleUp monthCollapse p precise) * 24
    + hours64 (rippleUp monthCollapse p precise)) * 60
   + minutes64 (rippleUp monthCollapse p precise)) * 60
  + seconds64 (rippleUp monthCollapse p precise)
    = days64 p * 86400 + hmsOf p /\
  fraction64 (rippleUp monthCollapse p precise) = fraction64 p /\
  fpart64 (rippleUp monthCollapse p precise) = fpart64 p /\
  neg (rippleUp monthCollapse p precise) = neg p /\
  input (rippleUp monthCollapse p precise) = input p.
Proof.
  intros R. rewrite (rippleUp_exact monthCollapse p precise R).
  cbn [years64 months64 days64 hours64 minutes64 seconds64 fraction64
       fpart64 neg input].
  destruct R as (Hh & Hmi & Hs & Hd & Hmo & Hy & Hdd).
  unfold daysAfterFold, hoursAfterFold, hmsAfterBorrow.
  set (bd := borrowedDays (hmsOf p)).
  set (hms := hmsOf p). clearbody bd hms.
  repeat split; try (Z.div_mod_to_equations; lia).
  destruct (foldsHours p precise); Z.div_mod_to_equations; lia.
Qed.

(** Fourteen months, one day, minus one minute. *)
Definition minuteShort : period64 :=
  mkPeriod64 0 14 1 0 (-1) 0 0 NoFraction false "".

Lemma minuteShort_ripples : ripplesExactly minuteShort true.
Proof.
  unfold ripplesExactly. vm_compute.
  repeat split; discriminate.
Qed.

Lemma rippleUp_canonical_ranges_witness :
  ripplesExactly minuteShort true /\
  rippleUp Sample.monthCollapse minuteShort true =
    mkPeriod64 1 2 0 23 59 0 0 NoFraction false "" /\
  0 <= minutes64 (rippleUp Sample.monthCollapse minuteShort true) < 60.
Proof.
  split; [exact minuteShort_ripples|]. split; [vm_compute; reflexivity|].
  apply (rippleUp_canonical_ranges Sample.monthCollapse minuteShort true
           minuteShort_ripples).
Defined.

Lemma rippleUp_keeps_totals_witness :
  ripplesExactly minuteShort true /\
  years64 (rippleUp Sample.monthCollapse minuteShort true) * 12
    + months64 (rippleUp Sample.monthCollapse minuteShort true)
    = years64 minuteShort * 12 + months64 minuteShort.
Proof.
  split; [exact minuteShort_ripples|].
  apply (rippleUp_keeps_totals Sample.monthCollapse minuteShort true
           minuteShort_ripples).
Defined.

(** ** The fast path adds exactly *)

Lemma Sign_of_positive_fraction (p : Period) :
  nonNegative p -> 0 < fraction p -> Sign p = 1.
Proof.
  intros N F. destruct (Sign_nonNegative p N) as [[_ P]|S]; [|exact S].
  unfold nonPositive in P. lia.
Qed.

Lemma Sign_of_negative_fraction (p : Period) :
  nonPositive p -> fraction p < 0 -> Sign p = -1.
Proof.
  intros N F. destruct (Sign_nonPositive p N) as [[_ P]|S]; [|exact S].
  unfold nonNegative in P. lia.
Qed.

(** The unit carried by [simpleAdd] and the fraction left, when the sum of
    the fractions passes 99 in magnitude. *)
Lemma carried_unit (a b : Period) :
  validPeriod a -> validPeriod b -> Sign a = Sign b ->
  let fr := fraction a + fraction b in
  (fr >? 99) || (fr <? -99) = true ->
  (int16 (Sign a) = 1 /\ Z.rem fr 100 = fr - 100 /\ 99 < fr) \/
  (int16 (Sign a) = -1 /\ Z.rem fr 100 = fr + 100 /\ fr < -99).
Proof.
  intros (Ra & _ & Ia) (Rb & _ & Ib) E fr C.
  destruct Ra as (_ & _ & _ & _ & _ & _ & Rfa).
  destruct Rb as (_ & _ & _ & _ & _ & _ & Rfb).
  apply Z.abs_le in Rfa, Rfb.
  destruct (same_sign_cases a b Ia Ib E) as [[Na Nb]|[Pa Pb]].
  - left.
    assert (Fa : 0 <= fraction a) by (unfold nonNegative in Na; tauto).
    assert (Fb : 0 <= fraction b) by (unfold nonNegative in Nb; tauto).
    assert (G : 99 < fr).
    { apply orb_true_iff in C. destruct C as [C|C];
        [apply Z.gtb_lt in C; exact C|apply Z.ltb_lt in C; unfold fr in *; lia]. }
    rewrite (Sign_of_positive_fraction a Na) by (unfold fr in G; lia).
    split; [reflexivity|]. split; [|exact G].
    clear - G Rfa Rfb Fa Fb. unfold fr in *. Z.quot_rem_to_equations. lia.
  - right.
    assert (Fa : fraction a <= 0) by (unfold nonPositive in Pa; tauto).
    assert (Fb : fraction b <= 0) by (unfold nonPositive in Pb; tauto).
    assert (G : fr < -99).
    { apply orb_true_iff in C. destruct C as [C|C];
        [apply Z.gtb_lt in C; unfold fr in *; lia|apply Z.ltb_lt in C; exact C]. }
    rewrite (Sign_of_negative_fraction a Pa) by (unfold fr in G; lia).
    split; [reflexivity|]. split; [|exact G].
    clear - G Rfa Rfb Fa Fb. unfold fr in *. Z.quot_rem_to_equations. lia.
Qed.

Ltac fits := unfold in16, in8, MinInt16, MaxInt16 in *; lia.

Lemma simpleAdd_adds_totals (a b : Period) :
  validPeriod a -> validPeriod b -> fastPath a b = true ->
  fieldSumsFit a b ->
  centiYM (simpleAdd a b) = centiYM a + centiYM b /\
  centiDays (simpleAdd a b) = centiDays a + centiDays b /\
  centiHMS (simpleAdd a b) = centiHMS a + centiHMS b.
Proof.
  intros Va Vb F Fit.
  pose proof (fastPath_same_sign a b F) as E.
  pose proof (carried_unit a b Va Vb E) as CU. cbv zeta in CU.
  unfold fastPath in F. apply andb_true_iff in F. destruct F as [F _].
  destruct Va as (Ra & Fa & _). destruct Vb as (Rb & Fb & _).
  rewrite simpleAdd_parts. unfold simpleAddParts, carryInto.
  generalize dependent (int16 (Sign a)). intros one CU.
  unfold inRange, singleFraction, fieldSumsFit, MaxInt16 in *.
  destruct a as [ya ma da ha mia sa fa pa].
  destruct b as [yb mb db hb mib sb fb pb].
  cbn [years months days hours minutes seconds fraction fpart] in *.
  rewrite !Z.abs_le, !Z.abs_lt in *.
  clear E.
  destruct pa, pb; try discriminate F; clear F;
    cbn [designator_eqb]; cbv beta iota zeta.
  all: try (assert (fa = 0) by (apply Fa; reflexivity); subst fa);
       try (assert (fb = 0) by (apply Fb; reflexivity); subst fb);
       clear Fa Fb.
  all: try (destruct ((fa + fb >? 99) || (fa + fb <? -99)) eqn:C;
            [destruct (CU eq_refl) as [(-> & Rm & G)|(-> & Rm & G)];
             rewrite Rm
            |apply orb_false_iff in C; destruct C as [C1 C2];
             apply gtb_false in C1; apply Z.ltb_ge in C2]);
       clear CU.
  all: cbv beta iota zeta;
       cbn [years months days hours minutes seconds fraction fpart];
       unfold centiYM, centiDays, centiHMS;
       cbn [years months days hours minutes seconds fraction fpart];
       rewrite ?add16_bump_small by fits;
       rewrite ?add16_small by fits;
       rewrite ?int8_small by fits.
  all: match goal with
       | |- context [?f =? 0] => destruct (Z.eqb_spec f 0)
       end; lia.
Qed.

Lemma simpleAdd_range_single (a b : Period) :
  validPeriod a -> validPeriod b -> fastPath a b = true ->
  fieldSumsFit a b ->
  inRange (simpleAdd a b) /\ singleFraction (simpleAdd a b).
Proof.
  intros Va Vb F Fit.
  pose proof (fastPath_same_sign a b F) as E.
  pose proof (carried_unit a b Va Vb E) as CU. cbv zeta in CU.
  unfold fastPath in F. apply andb_true_iff in F. destruct F as [F _].
  destruct Va as (Ra & Fa & _). destruct Vb as (Rb & Fb & _).
  rewrite simpleAdd_parts. unfold simpleAddParts, carryInto.
  generalize dependent (int16 (Sign a)). intros one CU.
  unfold inRange, singleFraction, fieldSumsFit, MaxInt16 in *.
  destruct a as [ya ma da ha mia sa fa pa].
  destruct b as [yb mb db hb mib sb fb pb].
  cbn [years months days hours minutes seconds fraction fpart] in *.
  rewrite !Z.abs_le, !Z.abs_lt in *.
  clear E.
  destruct pa, pb; try discriminate F; clear F;
    cbn [designator_eqb]; cbv beta iota zeta.
  all: try (assert (fa = 0) by (apply Fa; reflexivity); subst fa);
       try (assert (fb = 0) by (apply Fb; reflexivity); subst fb).
  all: try (destruct ((fa + fb >? 99) || (fa + fb <? -99)) eqn:C;
            [destruct (CU eq_refl) as [(-> & Rm & G)|(-> & Rm & G)];
             rewrite Rm
            |apply orb_false_iff in C; destruct C as [C1 C2];
             apply gtb_false in C1; apply Z.ltb_ge in C2]);
       clear CU.
  all: cbv beta iota zeta;
       cbn [years months days hours minutes seconds fraction fpart];
       rewrite ?add16_bump_small by fits;
       rewrite ?add16_small by fits;
       rewrite ?int8_small by fits.
  all: match goal with
       | |- context [?f =? 0] => destruct (Z.eqb_spec f 0)
       end;
       (split; [lia|]);
       (split; intros Q; try reflexivity; try discriminate Q; try lia).
  all: exfalso; (apply Fa in Q || apply Fb in Q); discriminate Q.
Qed.

(** ** The general path *)

Lemma splitFraction_single (cym cd chms : Z) :
  fst (splitFraction cym cd chms) = 0 <->
  snd (splitFraction cym cd chms) = NoFraction.
Proof.
  unfold splitFraction.
  destruct (Z.eqb_spec (chms mod 100) 0);
  destruct (Z.eqb_spec (cd mod 100) 0);
  destruct (Z.eqb_spec (cym mod 100) 0);
  cbn [negb fst snd]; split; intros Q; try reflexivity; try discriminate Q;
    try contradiction.
Qed.

(** Narrowing a normalised value made of non-negative totals gives a valid
    Period, the zero Period when a field overflows. *)
Lemma p64Of_toPeriod_valid
  (String64 : period64 -> string) (monthCollapse : Z -> Z * Z * Z * Z)
  (cym cd chms : Z) (ng : bool) :
  0 <= cym <= big -> 0 <= cd <= big -> 0 <= chms <= big ->
  foldedDays cd chms <= MaxInt16 ->
  validPeriod (fst (toPeriod String64 (p64Of monthCollapse cym cd chms ng))).
Proof.
  intros Hym Hd Hs Hf.
  pose proof (p64Of_nonNegative64 monthCollapse cym cd chms ng Hym Hd Hs Hf)
    as NN.
  pose proof (toPeriod_sign String64 _ NN) as SI.
  split; [|split; [|exact SI]].
  - destruct (toPeriod_cases String64 (p64Of monthCollapse cym cd chms ng))
      as [[N E]|[_ E]]; rewrite E; cbn [fst].
    2:{ unfold inRange, zeroPeriod, MaxInt16. cbn. lia. }
    apply overflowFields_nil in N.
    destruct NN as (Ny & Nmo & Nd & Nh & Nmi & Ns & Nf).
    destruct N as (Oy & Omo & Od & Oh & Omi & Os & Of).
    rewrite narrow_small by (split; assumption).
    unfold inRange.
    destruct (neg (p64Of monthCollapse cym cd chms ng));
      cbn [years months days hours minutes seconds fraction]; lia.
  - destruct (toPeriod_cases String64 (p64Of monthCollapse cym cd chms ng))
      as [[N E]|[_ E]]; rewrite E; cbn [fst].
    2:{ unfold singleFraction, zeroPeriod. cbn. tauto. }
    apply overflowFields_nil in N.
    destruct NN as (Ny & Nmo & Nd & Nh & Nmi & Ns & Nf).
    destruct N as (Oy & Omo & Od & Oh & Omi & Os & Of).
    rewrite narrow_small by (split; assumption).
    rewrite p64Of_nonneg by assumption.
    cbn [neg fraction64 fpart64].
    pose proof (splitFraction_single cym cd chms) as SS.
    unfold singleFraction.
    destruct ng; cbn [fraction fpart]; rewrite <- SS; lia.
Qed.

Lemma nonTrivialAdd_valid
  (String64 : period64 -> string) (monthCollapse : Z -> Z * Z * Z * Z)
  (a b : Period) :
  inRange a -> inRange b -> groupSumsAgree a b -> noMonthCollapse a b ->
  validPeriod (nonTrivialAdd String64 monthCollapse a b).
Proof.
  intros Ra Rb G M.
  destruct (centi_bounds a Ra) as (Aym & Ad & Ahms).
  destruct (centi_bounds b Rb) as (Bym & Bd & Bhms).
  unfold nonTrivialAdd, groupSumsAgree, noMonthCollapse in *.
  unfold halfBig in *.
  rewrite (add64_small (centiYM a)), (add64_small (centiDays a)),
          (add64_small (centiHMS a)) by bnd.
  set (cym := centiYM a + centiYM b) in *.
  set (cd := centiDays a + centiDays b) in *.
  set (chms := centiHMS a + centiHMS b) in *.
  assert (Bcym : Z.abs cym <= big) by (unfold big, cym; lia).
  assert (Bcd : Z.abs cd <= big) by (unfold big, cd; lia).
  assert (Bchms : Z.abs chms <= big) by (unfold big, chms; lia).
  clearbody cym cd chms. clear Aym Ad Ahms Bym Bd Bhms Ra Rb.
  destruct (Z.geb_spec cym 0) as [Hym|Hym];
  destruct (Z.geb_spec cd 0) as [Hd|Hd];
  destruct (Z.geb_spec chms 0) as [Hs|Hs]; cbn [andb].
  1:{ apply p64Of_toPeriod_valid; try lia.
      rewrite !Z.abs_eq in M by lia. exact M. }
  all: assert (N : cym <= 0 /\ cd <= 0 /\ chms <= 0) by lia;
       destruct N as (Nym & Nd & Ns);
       unfold neg64; rewrite !int64_small by (unfold big in *; bnd);
       apply p64Of_toPeriod_valid; try lia;
       rewrite <- !Z.abs_neq by lia; exact M.
Qed.

(** At most one of the three group sums carries hundredths. *)
Definition oneGroupSum (a b : Period) : Prop :=
  ((centiDays a + centiDays b) mod 100 = 0 /\
   (centiHMS a + centiHMS b) mod 100 = 0) \/
  ((centiYM a + centiYM b) mod 100 = 0 /\
   (centiHMS a + centiHMS b) mod 100 = 0) \/
  ((centiYM a + centiYM b) mod 100 = 0 /\
   (centiDays a + centiDays b) mod 100 = 0).

(** The three group sums fit the public fields: at most 32767 years, 32767
    days and 32767 hours. *)
Definition groupSumsFit (a b : Period) : Prop :=
  Z.abs (centiYM a + centiYM b) / 1200 <= MaxInt16 /\
  Z.abs (centiDays a + centiDays b) / 100 <= MaxInt16 /\
  Z.abs (centiHMS a + centiHMS b) / 360000 <= MaxInt16.

Lemma abs_mod_100 (x : Z) : x mod 100 = 0 -> Z.abs x mod 100 = 0.
Proof. intros H. Z.div_mod_to_equations. lia. Qed.

Lemma nonTrivialAdd_adds_totals
  (String64 : period64 -> string) (monthCollapse : Z -> Z * Z * Z * Z)
  (a b : Period) :
  inRange a -> inRange b -> groupSumsAgree a b -> oneGroupSum a b ->
  groupSumsFit a b ->
  centiYM (nonTrivialAdd String64 monthCollapse a b) = centiYM a + centiYM b /\
  centiDays (nonTrivialAdd String64 monthCollapse a b)
    = centiDays a + centiDays b /\
  centiHMS (nonTrivialAdd String64 monthCollapse a b)
    = centiHMS a + centiHMS b.
Proof.
  intros Ra Rb G.
  destruct (centi_bounds a Ra) as (Aym & Ad & Ahms).
  destruct (centi_bounds b Rb) as (Bym & Bd & Bhms).
  unfold nonTrivialAdd, groupSumsAgree, oneGroupSum, groupSumsFit in *.
  unfold halfBig in *.
  rewrite (add64_small (centiYM a)), (add64_small (centiDays a)),
          (add64_small (centiHMS a)) by bnd.
  assert (Bcym : Z.abs (centiYM a + centiYM b) <= big) by (unfold big; lia).
  assert (Bcd : Z.abs (centiDays a + centiDays b) <= big)
    by (unfold big; lia).
  assert (Bchms : Z.abs (centiHMS a + centiHMS b) <= big)
    by (unfold big; lia).
  clear Aym Ad Ahms Bym Bd Bhms Ra Rb.
  set (cym := centiYM a + centiYM b) in *.
  set (cd := centiDays a + centiDays b) in *.
  set (chms := centiHMS a + centiHMS b) in *.
  clearbody cym cd chms.
  intros O (Fym & Fd & Fhms).
  assert (O' : (Z.abs cd mod 100 = 0 /\ Z.abs chms mod 100 = 0) \/
               (Z.abs cym mod 100 = 0 /\ Z.abs chms mod 100 = 0) \/
               (Z.abs cym mod 100 = 0 /\ Z.abs cd mod 100 = 0)).
  { destruct O as [[O1 O2]|[[O1 O2]|[O1 O2]]];
      apply abs_mod_100 in O1; apply abs_mod_100 in O2; tauto. }
  clear O.
  destruct (Z.geb_spec cym 0) as [Hym|Hym];
  destruct (Z.geb_spec cd 0) as [Hd|Hd];
  destruct (Z.geb_spec chms 0) as [Hs|Hs]; cbn [andb].
  1:{ rewrite !Z.abs_eq in * by lia.
      destruct (p64Of_totals String64 monthCollapse cym cd chms false)
        as (r & E & Rym & Rd & Rhms); try assumption; try lia.
      rewrite E. cbn [fst]. tauto. }
  all: assert (N : cym <= 0 /\ cd <= 0 /\ chms <= 0) by lia;
       destruct N as (Nym & Nd & Ns);
       unfold neg64; rewrite !int64_small by (unfold big in *; bnd);
       rewrite !Z.abs_neq in * by lia;
       destruct (p64Of_totals String64 monthCollapse (- cym) (- cd) (- chms)
                   true)
         as (r & E & Rym & Rd & Rhms); try assumption; try lia;
       rewrite E; cbn [fst]; lia.
Qed.

(** X5. On the fast path, when every field-wise sum stays strictly inside
    the int16 range, [Add] is exact: each of the three centi-unit totals of
    the result is the sum of the operands' totals, the carry out of the
    fraction included. *)
Theorem Add_fast_path_adds_totals
  (String64 : period64 -> string) (monthCollapse : Z -> Z * Z * Z * Z)
  (a b : Period) :
  validPeriod a -> validPeriod b -> fastPath a b = true ->
  fieldSumsFit a b ->
  centiYM (Add String64 monthCollapse a b) = centiYM a + centiYM b /\
  centiDays (Add String64 monthCollapse a b) = centiDays a + centiDays b /\
  centiHMS (Add String64 monthCollapse a b) = centiHMS a + centiHMS b.
Proof.
  intros Va Vb F Fit. rewrite Add_paths, F.
  apply simpleAdd_adds_totals; assumption.
Qed.

Lemma dayAndHalf_twoDaysQuarter_fit : fieldSumsFit dayAndHalf twoDaysQuarter.
Proof. unfold fieldSumsFit. vm_compute. repeat split. Qed.

Lemma Add_fast_path_adds_totals_witness :
  validPeriod dayAndHalf /\ validPeriod twoDaysQuarter /\
  fastPath dayAndHalf twoDaysQuarter = true /\
  Add Sample.String64 Sample.monthCollapse dayAndHalf twoDaysQuarter =
    mkPeriod 0 0 4 0 0 0 25 Day /\
  centiDays (Add Sample.String64 Sample.monthCollapse dayAndHalf
               twoDaysQuarter) = centiDays dayAndHalf + centiDays twoDaysQuarter.
Proof.
  assert (V1 : validPeriod dayAndHalf)
    by (apply validPeriod_dec_sound; vm_compute; reflexivity).
  assert (V2 : validPeriod twoDaysQuarter)
    by (apply validPeriod_dec_sound; vm_compute; reflexivity).
  split; [exact V1|]. split; [exact V2|]. split; [reflexivity|].
  split; [vm_compute; reflexivity|].
  apply (Add_fast_path_adds_totals Sample.String64 Sample.monthCollapse
           dayAndHalf twoDaysQuarter V1 V2 eq_refl
           dayAndHalf_twoDaysQuarter_fit).
Defined.

(** X6. On the general path, when the three group sums are all non-negative
    or all non-positive, at most one of them carries hundredths, and they fit
    the public fields (at most 32767 years, days and hours), [Add] is exact:
    each centi-unit total of the result is the sum of the operands' totals.
    This is the case of a subtraction whose result keeps one sign. *)
Theorem Add_general_path_adds_totals
  (String64 : period64 -> string) (monthCollapse : Z -> Z * Z * Z * Z)
  (a b : Period) :
  inRange a -> inRange b -> fastPath a b = false ->
  groupSumsAgree a b -> oneGroupSum a b -> groupSumsFit a b ->
  centiYM (Add String64 monthCollapse a b) = centiYM a + centiYM b /\
  centiDays (Add String64 monthCollapse a b) = centiDays a + centiDays b /\
  centiHMS (Add String64 monthCollapse a b) = centiHMS a + centiHMS b.
Proof.
  intros Ra Rb F G O Fit. rewrite Add_paths, F.
  apply nonTrivialAdd_adds_totals; assumption.
Qed.

(** Two days and three hours, minus half a day. *)
Definition twoDaysThreeHours : Period := mkPeriod 0 0 2 3 0 0 0 NoFraction.
Definition minusHalfDay : Period := mkPeriod 0 0 0 0 0 0 (-50) Day.

Lemma Add_general_path_adds_totals_witness :
  inRange twoDaysThreeHours /\ inRange minusHalfDay /\
  fastPath twoDaysThreeHours minusHalfDay = false /\
  Add Sample.String64 Sample.monthCollapse twoDaysThreeHours minusHalfDay =
    mkPeriod 0 0 1 3 0 0 50 Day /\
  centiDays (Add Sample.String64 Sample.monthCollapse twoDaysThreeHours
               minusHalfDay) = 150.
Proof.
  assert (R1 : inRange twoDaysThreeHours)
    by (unfold inRange; vm_compute; repeat split; discriminate).
  assert (R2 : inRange minusHalfDay)
    by (unfold inRange; vm_compute; repeat split; discriminate).
  split; [exact R1|]. split; [exact R2|]. split; [reflexivity|].
  split; [vm_compute; reflexivity|].
  refine (proj1 (proj2 (Add_general_path_adds_totals Sample.String64
            Sample.monthCollapse twoDaysThreeHours minusHalfDay R1 R2 eq_refl
            _ _ _))).
  - left. vm_compute. repeat split; discriminate.
  - right. left. vm_compute. split; reflexivity.
  - unfold groupSumsFit. vm_compute. repeat split; discriminate.
Defined.

(** X7. Under the conditions of the two paths (fast path: every field-wise
    sum strictly inside the int16 range; general path: group sums of one sign
    and no floating-point month collapse) the result of [Add] on valid
    Periods is a valid Period: fields within -32767..32767, fraction within
    -99..99, fraction zero exactly when the designator is NoFraction, and one
    sign throughout. *)
Theorem Add_returns_valid_period
  (String64 : period64 -> string) (monthCollapse : Z -> Z * Z * Z * Z)
  (a b : Period) :
  validPeriod a -> validPeriod b ->
  (fastPath a b = true -> fieldSumsFit a b) ->
  (fastPath a b = false -> groupSumsAgree a b /\ noMonthCollapse a b) ->
  validPeriod (Add String64 monthCollapse a b).
Proof.
  intros Va Vb Fast General. rewrite Add_paths.
  destruct (fastPath a b) eqn:F.
  - pose proof (Fast eq_refl) as Fit.
    destruct (simpleAdd_range_single a b Va Vb F Fit) as [R S].
    split; [exact R|]. split; [exact S|].
    apply simpleAdd_sign; try assumption.
    apply fastPath_same_sign. exact F.
  - destruct (General eq_refl) as [G M].
    destruct Va as (Ra & _ & _). destruct Vb as (Rb & _ & _).
    apply nonTrivialAdd_valid; assumption.
Qed.

Lemma Add_returns_valid_period_witness :
  validPeriod dayAndHalf /\ validPeriod twoDaysQuarter /\
  validPeriod
    (Add Sample.String64 Sample.monthCollapse dayAndHalf twoDaysQuarter).
Proof.
  assert (V1 : validPeriod dayAndHalf)
    by (apply validPeriod_dec_sound; vm_compute; reflexivity).
  assert (V2 : validPeriod twoDaysQuarter)
    by (apply validPeriod_dec_sound; vm_compute; reflexivity).
  split; [exact V1|]. split; [exact V2|].
  apply (Add_returns_valid_period Sample.String64 Sample.monthCollapse
           dayAndHalf twoDaysQuarter V1 V2).
  - intros _. exact dayAndHalf_twoDaysQuarter_fit.
  - intros F. discriminate F.
Defined.

(** ** Scaling on the exact path *)

Lemma p64Of_zero (monthCollapse : Z -> Z * Z * Z * Z) (ng : bool) :
  p64Of monthCollapse 0 0 0 ng =
    mkPeriod64 0 0 0 0 0 0 0 NoFraction ng "".
Proof.
  rewrite p64Of_nonneg
    by (unfold big, foldedDays, MaxInt16; cbn; lia).
  reflexivity.
Qed.

Lemma toPeriod_zero (String64 : period64 -> string) (ng : bool) (s : string) :
  toPeriod String64 (mkPeriod64 0 0 0 0 0 0 0 NoFraction ng s)
    = (zeroPeriod, None).
Proof. destruct ng; reflexivity. Qed.

(** X8. Scaling by a zero multiplier over any non-zero divisor returns the
    zero Period with a nil error, for every Period whatever its fields. *)
Theorem rationalScale64_by_zero
  (String64 : period64 -> string) (monthCollapse : Z -> Z * Z * Z * Z)
  (daysPerMonthE6 oneE6 : Z) (NewOf : Z -> Period * bool)
  (condNegate Normalise Simplify : Period -> bool -> Period)
  (p : Period) (d : Z) :
  d <> 0 ->
  rationalScale64 String64 monthCollapse daysPerMonthE6 oneE6 NewOf
                  condNegate Normalise Simplify p 0 d
    = Return (zeroPeriod, None).
Proof.
  intros Hd.
  assert (Z0 : forall c, mul64 c 0 = 0)
    by (intros c; unfold mul64; rewrite Z.mul_0_r; reflexivity).
  assert (X : exactPath p 0 d).
  { unfold exactPath, scaledYM, scaledDays, scaledHMS, rem64.
    rewrite !Z0, Z.rem_0_l by exact Hd. tauto. }
  destruct (rationalScale64_exact String64 monthCollapse daysPerMonthE6 oneE6
              NewOf condNegate Normalise Simplify p 0 d Hd X) as [_ E].
  rewrite E. unfold scaledYM, scaledDays, scaledHMS. rewrite !Z0.
  assert (Q : quot64 0 d = 0)
    by (unfold quot64; rewrite Z.quot_0_l by exact Hd; reflexivity).
  rewrite Q, p64Of_zero, toPeriod_zero. reflexivity.
Qed.

Lemma rationalScale64_by_zero_witness :
  7 <> 0 /\
  rationalScale64 Sample.String64 Sample.monthCollapse 30436875 1000000
                  (fun _ => (zeroPeriod, true)) (fun q _ => q)
                  (fun q _ => q) (fun q _ => q) mixedPeriod 0 7
    = Return (zeroPeriod, None).
Proof.
  split; [discriminate|].
  apply (rationalScale64_by_zero Sample.String64 Sample.monthCollapse
           30436875 1000000 (fun _ => (zeroPeriod, true)) (fun q _ => q)
           (fun q _ => q) (fun q _ => q) mixedPeriod 7).
  discriminate.
Defined.

(** The multiplier is small enough for the products to stay inside int64. *)
Definition smallFactor (m : Z) : Prop := Z.abs m <= 1048576.

Lemma scaled_small (p : Period) (m : Z) :
  validPeriod p -> smallFactor m ->
  scaledYM p m = Z.abs (centiYM p) * m /\
  scaledDays p m = Z.abs (centiDays p) * m /\
  scaledHMS p m = Z.abs (centiHMS p) * m.
Proof.
  intros V M. unfold smallFactor in M.
  destruct (absNeg_totals p V) as (_ & Eym & Ed & Ehms & _).
  destruct V as (R & _ & _).
  destruct (centi_bounds p R) as (Cym & Cd & Chms).
  unfold scaledYM, scaledDays, scaledHMS, mul64.
  rewrite Eym, Ed, Ehms. unfold halfBig in *.
  repeat split; apply int64_small; unfold in64, MinInt64, MaxInt64; nia.
Qed.

(** X9. Scaling by [m/m] is scaling by [1/1]: for a valid Period and a
    non-zero multiplier of magnitude at most 2^20, both calls take the exact
    path with the same quotients and return the same pair. *)
Theorem rationalScale64_same_factor
  (String64 : period64 -> string) (monthCollapse : Z -> Z * Z * Z * Z)
  (daysPerMonthE6 oneE6 : Z) (NewOf : Z -> Period * bool)
  (condNegate Normalise Simplify : Period -> bool -> Period)
  (p : Period) (m : Z) :
  validPeriod p -> m <> 0 -> smallFactor m ->
  rationalScale64 String64 monthCollapse daysPerMonthE6 oneE6 NewOf
                  condNegate Normalise Simplify p m m =
  rationalScale64 String64 monthCollapse daysPerMonthE6 oneE6 NewOf
                  condNegate Normalise Simplify p 1 1.
Proof.
  intros V Hm M.
  destruct (scaled_small p m V M) as (Sym & Sd & Shms).
  assert (M1 : smallFactor 1) by (unfold smallFactor; cbn; lia).
  destruct (scaled_small p 1 V M1) as (Tym & Td & Thms).
  rewrite Z.mul_1_r in Tym, Td, Thms.
  destruct V as (R & _ & _).
  destruct (centi_bounds p R) as (Cym & Cd & Chms). unfold halfBig in *.
  assert (Q : forall c, Z.abs c <= 549755813888 ->
                        rem64 (Z.abs c * m) m = 0 /\
                        quot64 (Z.abs c * m) m = Z.abs c /\
                        rem64 (Z.abs c) 1 = 0 /\
                        quot64 (Z.abs c) 1 = Z.abs c).
  { intros c Hc. unfold rem64, quot64.
    rewrite Z.rem_mul, Z.quot_mul, Z.rem_1_r, Z.quot_1_r by exact Hm.
    rewrite int64_small by (unfold in64, MinInt64, MaxInt64; lia). tauto. }
  destruct (Q _ Cym) as (A1 & A2 & A3 & A4).
  destruct (Q _ Cd) as (B1 & B2 & B3 & B4).
  destruct (Q _ Chms) as (C1 & C2 & C3 & C4).
  assert (X : exactPath p m m).
  { unfold exactPath. rewrite Sym, Sd, Shms. tauto. }
  assert (X1 : exactPath p 1 1).
  { unfold exactPath. rewrite Tym, Td, Thms. tauto. }
  destruct (rationalScale64_exact String64 monthCollapse daysPerMonthE6 oneE6
              NewOf condNegate Normalise Simplify p m m Hm X) as [_ E].
  destruct (rationalScale64_exact String64 monthCollapse daysPerMonthE6 oneE6
              NewOf condNegate Normalise Simplify p 1 1 ltac:(lia) X1)
    as [_ E1].
  rewrite E, E1, Sym, Sd, Shms, Tym, Td, Thms, A2, B2, C2, A4, B4, C4.
  reflexivity.
Qed.

Lemma rationalScale64_same_factor_witness :
  validPeriod mixedPeriod /\ -3 <> 0 /\ smallFactor (-3) /\
  rationalScale64 Sample.String64 Sample.monthCollapse 30436875 1000000
                  (fun _ => (zeroPeriod, true)) (fun q _ => q)
                  (fun q _ => q) (fun q _ => q) mixedPeriod (-3) (-3) =
  rationalScale64 Sample.String64 Sample.monthCollapse 30436875 1000000
                  (fun _ => (zeroPeriod, true)) (fun q _ => q)
                  (fun q _ => q) (fun q _ => q) mixedPeriod 1 1.
Proof.
  assert (V : validPeriod mixedPeriod)
    by (apply validPeriod_dec_sound; vm_compute; reflexivity).
  assert (M : smallFactor (-3)) by (unfold smallFactor; cbn; lia).
  split; [exact V|]. split; [discriminate|]. split; [exact M|].
  apply (rationalScale64_same_factor Sample.String64 Sample.monthCollapse
           30436875 1000000 (fun _ => (zeroPeriod, true)) (fun q _ => q)
           (fun q _ => q) (fun q _ => q) mixedPeriod (-3) V).
  - discriminate.
  - exact M.
Defined.

(** The three quotients of the exact path, for a multiplier that is not
    negative and a positive divisor. *)
Definition quotYM (p : Period) (m d : Z) : Z := Z.abs (centiYM p) * m / d.
Definition quotDays (p : Period) (m d : Z) : Z := Z.abs (centiDays p) * m / d.
Definition quotHMS (p : Period) (m d : Z) : Z := Z.abs (centiHMS p) * m / d.

Definition oneGroupQuotient (p : Period) (m d : Z) : Prop :=
  (quotDays p m d mod 100 = 0 /\ quotHMS p m d mod 100 = 0) \/
  (quotYM p m d mod 100 = 0 /\ quotHMS p m d mod 100 = 0) \/
  (quotYM p m d mod 100 = 0 /\ quotDays p m d mod 100 = 0).

Definition quotientsFit (p : Period) (m d : Z) : Prop :=
  quotYM p m d / 1200 <= MaxInt16 /\ quotDays p m d / 100 <= MaxInt16 /\
  quotHMS p m d / 360000 <= MaxInt16.

Lemma exact_quotient (c m d : Z) :
  0 <= c <= 549755813888 -> 0 <= m <= 1048576 -> 0 < d ->
  rem64 (c * m) d = 0 ->
  quot64 (c * m) d = c * m / d /\ c * m / d * d = c * m /\ 0 <= c * m / d.
Proof.
  intros Hc Hm Hd R. unfold rem64 in R.
  assert (P : 0 <= c * m <= MaxInt64) by (unfold MaxInt64; nia).
  rewrite quot64_nonneg by (assumption || lia).
  rewrite Z.rem_mod_nonneg in R by lia.
  split; [reflexivity|].
  pose proof (Z.div_mod (c * m) d ltac:(lia)) as DM. rewrite R in DM.
  split; [lia|]. apply Z.div_pos; lia.
Qed.

Lemma rationalScale64_exact_totals
  (String64 : period64 -> string) (monthCollapse : Z -> Z * Z * Z * Z)
  (daysPerMonthE6 oneE6 : Z) (NewOf : Z -> Period * bool)
  (condNegate Normalise Simplify : Period -> bool -> Period)
  (p : Period) (m d : Z) :
  validPeriod p -> 0 <= m <= 1048576 -> 0 < d -> exactPath p m d ->
  oneGroupQuotient p m d -> quotientsFit p m d ->
  exists r,
    rationalScale64 String64 monthCollapse daysPerMonthE6 oneE6 NewOf
                    condNegate Normalise Simplify p m d = Return (r, None) /\
    centiYM r * d = centiYM p * m /\ centiDays r * d = centiDays p * m /\
    centiHMS r * d = centiHMS p * m.
Proof.
  intros V Hm Hd X O (Fym & Fd & Fhms).
  assert (M : smallFactor m) by (unfold smallFactor; lia).
  destruct (scaled_small p m V M) as (Sym & Sd & Shms).
  destruct (absNeg_totals p V) as (Ng & _ & _ & _ & Sg).
  destruct V as (R & _ & _).
  destruct (centi_bounds p R) as (Cym & Cd & Chms). unfold halfBig in *.
  unfold exactPath in X. rewrite Sym, Sd, Shms in X.
  destruct X as (Xym & Xd & Xhms).
  destruct (exact_quotient (Z.abs (centiYM p)) m d ltac:(lia) Hm Hd Xym) as (Qym & Mym & Pym).
  destruct (exact_quotient (Z.abs (centiDays p)) m d ltac:(lia) Hm Hd Xd) as (Qd & Md & Pd).
  destruct (exact_quotient (Z.abs (centiHMS p)) m d ltac:(lia) Hm Hd Xhms) as (Qhms & Mhms & Phms).
  assert (X : exactPath p m d).
  { unfold exactPath. rewrite Sym, Sd, Shms. tauto. }
  destruct (rationalScale64_exact String64 monthCollapse daysPerMonthE6 oneE6
              NewOf condNegate Normalise Simplify p m d ltac:(lia) X)
    as [_ E].
  rewrite E, Sym, Sd, Shms, Qym, Qd, Qhms, Ng.
  unfold oneGroupQuotient, quotYM, quotDays, quotHMS in *.
  set (qym := Z.abs (centiYM p) * m / d) in *.
  set (qd := Z.abs (centiDays p) * m / d) in *.
  set (qhms := Z.abs (centiHMS p) * m / d) in *.
  assert (Bq : qym <= big /\ qd <= big /\ qhms <= big).
  { unfold big, MaxInt16 in *. clear - Fym Fd Fhms.
    repeat split; Z.div_mod_to_equations; lia. }
  destruct Bq as (Bqym & Bqd & Bqhms).
  destruct (p64Of_totals String64 monthCollapse qym qd qhms (IsNegative p))
    as (r & Er & Rym & Rd & Rhms); try assumption; try lia.
  exists r. split; [rewrite Er; reflexivity|].
  rewrite Rym, Rd, Rhms.
  clearbody qym qd qhms.
  clear - Sg Mym Md Mhms.
  destruct (IsNegative p); destruct Sg as (S1 & S2 & S3).
  - rewrite Z.abs_neq in Mym, Md, Mhms by assumption. lia.
  - rewrite Z.abs_eq in Mym, Md, Mhms by assumption. lia.
Qed.

(** X10. On the exact path, for a valid Period, a multiplier between 0 and
    2^20 and a positive divisor: when at most one of the three quotients
    carries hundredths and the quotients fit the public fields (at most 32767
    years, days and hours), the call succeeds with a nil error and each
    centi-unit total of the result, times the divisor, is the argument's
    total times the multiplier. *)
Theorem rationalScale64_exact_path_scales_totals
  (String64 : period64 -> string) (monthCollapse : Z -> Z * Z * Z * Z)
  (daysPerMonthE6 oneE6 : Z) (NewOf : Z -> Period * bool)
  (condNegate Normalise Simplify : Period -> bool -> Period)
  (p : Period) (m d : Z) :
  validPeriod p -> 0 <= m <= 1048576 -> 0 < d -> exactPath p m d ->
  oneGroupQuotient p m d -> quotientsFit p m d ->
  exists r,
    rationalScale64 String64 monthCollapse daysPerMonthE6 oneE6 NewOf
                    condNegate Normalise Simplify p m d = Return (r, None) /\
    centiYM r * d = centiYM p * m /\ centiDays r * d = centiDays p * m /\
    centiHMS r * d = centiHMS p * m.
Proof.
  intros V Hm Hd X O F.
  apply rationalScale64_exact_totals; assumption.
Qed.

Lemma rationalScale64_exact_path_scales_totals_witness :
  validPeriod threeDays /\ exactPath threeDays 1 2 /\
  oneGroupQuotient threeDays 1 2 /\ quotientsFit threeDays 1 2 /\
  exists r,
    rationalScale64 Sample.String64 Sample.monthCollapse 30436875 1000000
                    (fun _ => (zeroPeriod, true)) (fun q _ => q)
                    (fun q _ => q) (fun q _ => q) threeDays 1 2
      = Return (r, None) /\
    centiYM r * 2 = centiYM threeDays * 1 /\
    centiDays r * 2 = centiDays threeDays * 1 /\
    centiHMS r * 2 = centiHMS threeDays * 1.
Proof.
  assert (V : validPeriod threeDays)
    by (apply validPeriod_dec_sound; vm_compute; reflexivity).
  assert (X : exactPath threeDays 1 2) by (vm_compute; repeat split).
  assert (O : oneGroupQuotient threeDays 1 2)
    by (right; left; vm_compute; split; reflexivity).
  assert (F : quotientsFit threeDays 1 2)
    by (unfold quotientsFit; vm_compute; repeat split; discriminate).
  split; [exact V|]. split; [exact X|]. split; [exact O|]. split; [exact F|].
  apply (rationalScale64_exact_path_scales_totals Sample.String64
           Sample.monthCollapse 30436875 1000000
           (fun _ => (zeroPeriod, true)) (fun q _ => q) (fun q _ => q)
           (fun q _ => q) threeDays 1 2 V); try assumption; lia.
Defined.

(** X11. Scaling a valid Period by a whole number between 0 and 2^20
    ([RationalScale(m, 1)]) multiplies each of the three centi-unit totals by
    that number, with a nil error, whenever the products fit the public
    fields (at most 32767 years, days and hours). *)
Theorem RationalScale_whole_multiple
  (String64 : period64 -> string) (monthCollapse : Z -> Z * Z * Z * Z)
  (daysPerMonthE6 oneE6 : Z) (NewOf : Z -> Period * bool)
  (condNegate Normalise Simplify : Period -> bool -> Period)
  (p : Period) (m : Z) :
  validPeriod p -> 0 <= m <= 1048576 -> quotientsFit p m 1 ->
  exists r,
    RationalScale String64 monthCollapse daysPerMonthE6 oneE6 NewOf
                  condNegate Normalise Simplify p m 1 = Return (r, None) /\
    centiYM r = centiYM p * m /\ centiDays r = centiDays p * m /\
    centiHMS r = centiHMS p * m.
Proof.
  intros V Hm F.
  assert (M : smallFactor m) by (unfold smallFactor; lia).
  destruct (scaled_small p m V M) as (Sym & Sd & Shms).
  assert (X : exactPath p m 1).
  { unfold exactPath, rem64. rewrite !Z.rem_1_r. tauto. }
  assert (O : oneGroupQuotient p m 1).
  { unfold oneGroupQuotient, quotYM, quotDays, quotHMS.
    rewrite !Z.div_1_r.
    assert (K : forall c, c mod 100 = 0 -> (Z.abs c * m) mod 100 = 0).
    { intros c Hc. apply abs_mod_100 in Hc.
      rewrite <- Z.mul_mod_idemp_l, Hc by lia. reflexivity. }
    destruct (centi_one_group p) as [[A B]|[[A B]|[A B]]];
      apply K in A; apply K in B; tauto. }
  unfold RationalScale. change (int64 1) with 1.
  rewrite (int64_small m) by (unfold in64, MinInt64, MaxInt64; lia).
  destruct (rationalScale64_exact_totals String64 monthCollapse daysPerMonthE6
              oneE6 NewOf condNegate Normalise Simplify p m 1 V Hm
              ltac:(lia) X O F) as (r & E & Rym & Rd & Rhms).
  exists r. split; [exact E|]. lia.
Qed.

Lemma RationalScale_whole_multiple_witness :
  validPeriod mixedPeriod /\ quotientsFit mixedPeriod 3 1 /\
  exists r,
    RationalScale Sample.String64 Sample.monthCollapse 30436875 1000000
                  (fun _ => (zeroPeriod, true)) (fun q _ => q)
                  (fun q _ => q) (fun q _ => q) mixedPeriod 3 1
      = Return (r, None) /\
    centiYM r = centiYM mixedPeriod * 3 /\
    centiDays r = centiDays mixedPeriod * 3 /\
    centiHMS r = centiHMS mixedPeriod * 3.
Proof.
  assert (V : validPeriod mixedPeriod)
    by (apply validPeriod_dec_sound; vm_compute; reflexivity).
  assert (F : quotientsFit mixedPeriod 3 1)
    by (unfold quotientsFit; vm_compute; repeat split; discriminate).
  split; [exact V|]. split; [exact F|].
  apply (RationalScale_whole_multiple Sample.String64 Sample.monthCollapse
           30436875 1000000 (fun _ => (zeroPeriod, true)) (fun q _ => q)
           (fun q _ => q) (fun q _ => q) mixedPeriod 3 V); [lia|exact F].
Defined.

(** ** The centi-unit combiner and the narrowing, together *)

(** X12. [p64Of] keeps one fraction only.  For non-negative totals that need
    no month collapse, the fraction of the result is the hundredths of the
    hour-minute-second total if there are any, else those of the day total,
    else those of the year-month total, attached to Second, Day and Month in
    turn; hundredths of a group of lower priority are dropped.  The fraction
    is zero exactly when the designator is NoFraction. *)
Theorem p64Of_keeps_last_fraction
  (monthCollapse : Z -> Z * Z * Z * Z) (cym cd chms : Z) (ng : bool) :
  0 <= cym <= big -> 0 <= cd <= big -> 0 <= chms <= big ->
  foldedDays cd chms <= MaxInt16 ->
  let r := p64Of monthCollapse cym cd chms ng in
  (chms mod 100 <> 0 ->
   fraction64 r = chms mod 100 /\ fpart64 r = Second) /\
  (chms mod 100 = 0 -> cd mod 100 <> 0 ->
   fraction64 r = cd mod 100 /\ fpart64 r = Day) /\
  (chms mod 100 = 0 -> cd mod 100 = 0 -> cym mod 100 <> 0 ->
   fraction64 r = cym mod 100 /\ fpart64 r = Month) /\
  (chms mod 100 = 0 -> cd mod 100 = 0 -> cym mod 100 = 0 ->
   fraction64 r = 0 /\ fpart64 r = NoFraction) /\
  (fraction64 r = 0 <-> fpart64 r = NoFraction).
Proof.
  intros Hym Hd Hs Hf r. unfold r.
  rewrite p64Of_nonneg by assumption.
  cbn [fraction64 fpart64].
  pose proof (splitFraction_single cym cd chms) as SS.
  unfold splitFraction in *.
  destruct (Z.eqb_spec (chms mod 100) 0);
  destruct (Z.eqb_spec (cd mod 100) 0);
  destruct (Z.eqb_spec (cym mod 100) 0);
  cbn [negb fst snd] in *; repeat split; try tauto; try contradiction;
    intros; try contradiction; try tauto.
Qed.

Lemma p64Of_keeps_last_fraction_witness :
  foldedDays 150 50 <= MaxInt16 /\
  fraction64 (p64Of Sample.monthCollapse 0 150 50 false) = 50 /\
  fpart64 (p64Of Sample.monthCollapse 0 150 50 false) = Second /\
  days64 (p64Of Sample.monthCollapse 0 150 50 false) = 1.
Proof.
  assert (F : foldedDays 150 50 <= MaxInt16) by (vm_compute; discriminate).
  split; [exact F|].
  destruct (p64Of_keeps_last_fraction Sample.monthCollapse 0 150 50 false)
    as (S & _); try (unfold big; lia); try exact F.
  destruct S as [S1 S2]; [vm_compute; discriminate|].
  split; [exact S1|]. split; [exact S2|]. vm_compute. reflexivity.
Defined.

(** X13. Splitting and combining are inverse on the public range.  For
    non-negative totals of which at most one carries hundredths and which fit
    the public fields (at most 32767 years, days and hours), narrowing the
    value built by [p64Of] succeeds, and the centi-unit totals of the
    resulting Period are the totals given, negated when the sign flag is
    set. *)
Theorem p64Of_toPeriod_reads_back_totals
  (String64 : period64 -> string) (monthCollapse : Z -> Z * Z * Z * Z)
  (cym cd chms : Z) (ng : bool) :
  0 <= cym <= big -> 0 <= cd <= big -> 0 <= chms <= big ->
  (cd mod 100 = 0 /\ chms mod 100 = 0) \/
  (cym mod 100 = 0 /\ chms mod 100 = 0) \/
  (cym mod 100 = 0 /\ cd mod 100 = 0) ->
  cym / 1200 <= MaxInt16 -> cd / 100 <= MaxInt16 ->
  chms / 360000 <= MaxInt16 ->
  exists r,
    toPeriod String64 (p64Of monthCollapse cym cd chms ng) = (r, None) /\
    centiYM r = (if ng then - cym else cym) /\
    centiDays r = (if ng then - cd else cd) /\
    centiHMS r = (if ng then - chms else chms).
Proof.
  intros. apply p64Of_totals; assumption.
Qed.

Lemma p64Of_toPeriod_reads_back_totals_witness :
  exists r,
    toPeriod Sample.String64 (p64Of Sample.monthCollapse 1450 300 0 true)
      = (r, None) /\
    centiYM r = -1450 /\ centiDays r = -300 /\ centiHMS r = 0.
Proof.
  apply (p64Of_toPeriod_reads_back_totals Sample.String64
           Sample.monthCollapse 1450 300 0 true);
    try (unfold big; lia); try (vm_compute; discriminate).
  left. split; reflexivity.
Defined.

(** X14. A working value whose six magnitudes lie within 0..32767 and whose
    fraction lies within 0..99 is narrowed without loss: [toPeriod] returns a
    nil error and the fields themselves, all negated when [neg] is set. *)
Theorem toPeriod_narrows_exactly
  (String64 : period64 -> string) (r : period64) :
  0 <= years64 r <= MaxInt16 -> 0 <= months64 r <= MaxInt16 ->
  0 <= days64 r <= MaxInt16 -> 0 <= hours64 r <= MaxInt16 ->
  0 <= minutes64 r <= MaxInt16 -> 0 <= seconds64 r <= MaxInt16 ->
  0 <= fraction64 r <= 99 ->
  toPeriod String64 r =
    (if neg r
     then mkPeriod (- years64 r) (- months64 r) (- days64 r) (- hours64 r)
                   (- minutes64 r) (- seconds64 r) (- fraction64 r)
                   (fpart64 r)
     else mkPeriod (years64 r) (months64 r) (days64 r) (hours64 r)
                   (minutes64 r) (seconds64 r) (fraction64 r) (fpart64 r),
     None).
Proof.
  intros Hy Hmo Hd Hh Hmi Hs Hf.
  rewrite <- narrow_small by assumption.
  destruct (toPeriod_cases String64 r) as [[_ E]|[O _]]; [exact E|].
  exfalso. apply O. apply overflowFields_nil. lia.
Qed.

Definition minusHourAndHalf64 : period64 :=
  mkPeriod64 0 0 0 1 0 0 50 Hour true "-PT1.5H".

Lemma toPeriod_narrows_exactly_witness :
  toPeriod Sample.String64 minusHourAndHalf64 =
    (mkPeriod (-0) (-0) (-0) (-1) (-0) (-0) (-50) Hour, None).
Proof.
  apply (toPeriod_narrows_exactly Sample.String64 minusHourAndHalf64);
    vm_compute; split; discriminate.
Defined.

(** ** Normalisation in precise mode *)

Lemma rippleUp_frame
  (monthCollapse : Z -> Z * Z * Z * Z) (p : period64) (precise : bool) :
  fraction64 (rippleUp monthCollapse p precise) = fraction64 p /\
  fpart64 (rippleUp monthCollapse p precise) = fpart64 p /\
  neg (rippleUp monthCollapse p precise) = neg p /\
  input (rippleUp monthCollapse p precise) = input p.
Proof.
  unfold rippleUp.
  repeat match goal with
         | |- context [let '(_, _) := ?e in _] => destruct e
         end.
  cbn. tauto.
Qed.

(** X15. In precise mode [normalise64] never moves a fraction attached to
    Month, Day or Second: for such a value, and for one without fraction, it
    returns what [rippleUp] returns, with the fraction and the designator of
    its argument.  This holds for every period64, also past the month
    collapse. *)
Theorem normalise64_precise_keeps_fraction
  (monthCollapse : Z -> Z * Z * Z * Z) (p : period64) :
  fpart64 p = NoFraction \/ fpart64 p = Month \/ fpart64 p = Day \/
  fpart64 p = Second ->
  normalise64 monthCollapse p true = rippleUp monthCollapse p true /\
  fraction64 (normalise64 monthCollapse p true) = fraction64 p /\
  fpart64 (normalise64 monthCollapse p true) = fpart64 p.
Proof.
  intros F.
  destruct (rippleUp_frame monthCollapse p true) as (Ef & Ep & _).
  assert (E : normalise64 monthCollapse p true = rippleUp monthCollapse p true).
  { unfold normalise64. apply reduce_passes_precise_id. rewrite Ep. exact F. }
  rewrite E. tauto.
Qed.

Definition halfDay64 : period64 :=
  mkPeriod64 0 0 3 30 0 0 50 Day false "".

Lemma normalise64_precise_keeps_fraction_witness :
  normalise64 Sample.monthCollapse halfDay64 true =
    rippleUp Sample.monthCollapse halfDay64 true /\
  fraction64 (normalise64 Sample.monthCollapse halfDay64 true) = 50 /\
  fpart64 (normalise64 Sample.monthCollapse halfDay64 true) = Day.
Proof.
  apply (normalise64_precise_keeps_fraction Sample.monthCollapse halfDay64).
  right. right. left. reflexivity.
Defined.

(** ** The month-fraction reduction *)

Definition set_days (p : period64) (v : Z) : period64 :=
  mkPeriod64 (years64 p) (months64 p) v (hours64 p) (minutes64 p) (seconds64 p)
             (fraction64 p) (fpart64 p) (neg p) (input p).

Section MonthsFraction.

(** The average month length in millionths of a day and one million, two
    constants declared with the [Period] type. *)
Variable daysPerMonthE6 : Z.
Variable oneE6 : Z.

Definition reduceMonthsFraction (p64 : period64) (precise : bool) : period64 :=
  if negb precise && designator_eqb (fpart64 p64) Month then
    let centiDays := quot64 (mul64 daysPerMonthE6 (fraction64 p64)) oneE6 in
    let dayFraction := rem64 centiDays 100 in
    if dayFraction =? 0
    then set_fraction
           (set_days p64 (add64 (days64 p64) (quot64 centiDays 100)))
           0 NoFraction
    else p64
  else p64.

(** The centi-days a month fraction converts to. *)
Definition monthCentiDays (p : period64) : Z :=
  quot64 (mul64 daysPerMonthE6 (fraction64 p)) oneE6.

End MonthsFraction.

(** X16. [reduceMonthsFraction] has two outcomes.  It commits, which takes
    approximate mode, a fraction attached to Month and centi-days that are a
    multiple of 100: the whole days are added to the day field, the fraction
    becomes 0 and the designator NoFraction, nothing else changes.  Or it
    returns its argument unchanged; in precise mode it always does. *)
Theorem reduceMonthsFraction_commits_or_keeps
  (daysPerMonthE6 oneE6 : Z) (p : period64) (precise : bool) :
  (precise = false /\ fpart64 p = Month /\
   rem64 (monthCentiDays daysPerMonthE6 oneE6 p) 100 = 0 /\
   reduceMonthsFraction daysPerMonthE6 oneE6 p precise =
     mkPeriod64 (years64 p) (months64 p)
       (add64 (days64 p)
              (quot64 (monthCentiDays daysPerMonthE6 oneE6 p) 100))
       (hours64 p) (minutes64 p) (seconds64 p) 0 NoFraction (neg p) (input p))
  \/
  ((precise = true \/ fpart64 p <> Month \/
    rem64 (monthCentiDays daysPerMonthE6 oneE6 p) 100 <> 0) /\
   reduceMonthsFraction daysPerMonthE6 oneE6 p precise = p).
Proof.
  unfold reduceMonthsFraction, monthCentiDays.
  destruct precise; cbn [negb andb]; [right; split; [left|]; reflexivity|].
  destruct (fpart64 p) eqn:F; cbn [designator_eqb];
    try (right; split; [right; left; congruence|reflexivity]).
  destruct (Z.eqb_spec
              (rem64 (quot64 (mul64 daysPerMonthE6 (fraction64 p)) oneE6) 100)
              0) as [E|E].
  - left. repeat split; assumption.
  - right. split; [right; right; exact E|reflexivity].
Qed.

(** ** Subtraction: Add with Negate *)

Lemma Sign_zero_iff (p : Period) : Sign p = 0 <-> IsZero p = true.
Proof.
  unfold Sign. destruct (IsZero p); [tauto|].
  destruct (IsNegative p); split; intros H; discriminate H.
Qed.

Lemma Negate_fields (p : Period) :
  inRange p ->
  Negate p = mkPeriod (- years p) (- months p) (- days p) (- hours p)
                      (- minutes p) (- seconds p) (- fraction p) (fpart p).
Proof.
  unfold inRange, Negate, MaxInt16. rewrite !Z.abs_le. intros R.
  rewrite !int16_small by (unfold in16, MinInt16, MaxInt16; lia).
  rewrite int8_small by (unfold in8; lia). reflexivity.
Qed.

Lemma Sign_Negate_differs (p : Period) :
  validPeriod p -> IsZero p = false -> Sign (Negate p) <> Sign p.
Proof.
  intros (R & _ & I) Z0.
  assert (ZN : IsZero (Negate p) = false).
  { rewrite (Negate_fields p R).
    destruct (IsZero (mkPeriod _ _ _ _ _ _ _ _)) eqn:E; [|reflexivity].
    apply IsZero_true in E.
    cbn [years months days hours minutes seconds fraction] in E.
    assert (T : IsZero p = true) by (apply IsZero_true; lia).
    congruence. }
  assert (S0 : Sign p <> 0) by (rewrite Sign_zero_iff; congruence).
  assert (SN : Sign (Negate p) <> 0) by (rewrite Sign_zero_iff; congruence).
  destruct I as [N|P].
  - assert (NP : nonPositive (Negate p)).
    { rewrite (Negate_fields p R). unfold nonNegative, nonPositive in *.
      cbn [years months days hours minutes seconds fraction]. lia. }
    destruct (Sign_nonNegative p N) as [[S _]|S]; [contradiction|].
    destruct (Sign_nonPositive _ NP) as [[S' _]|S']; [contradiction|]. lia.
  - assert (NN : nonNegative (Negate p)).
    { rewrite (Negate_fields p R). unfold nonNegative, nonPositive in *.
      cbn [years months days hours minutes seconds fraction]. lia. }
    destruct (Sign_nonPositive p P) as [[S _]|S]; [contradiction|].
    destruct (Sign_nonNegative _ NN) as [[S' _]|S']; [contradiction|]. lia.
Qed.

(** X17. Adding a valid Period and its negation gives the zero Period: all
    fields zero, fraction zero, designator NoFraction. *)
Theorem Add_Negate_is_zero
  (String64 : period64 -> string) (monthCollapse : Z -> Z * Z * Z * Z)
  (p : Period) :
  validPeriod p ->
  Add String64 monthCollapse p (Negate p) = zeroPeriod.
Proof.
  intros V. rewrite Add_paths.
  destruct (IsZero p) eqn:Z0.
  - apply IsZero_true in Z0. destruct V as (_ & S & _).
    unfold singleFraction in S.
    destruct p as [y mo d h mi s f fp].
    cbn [years months days hours minutes seconds fraction fpart] in *.
    destruct Z0 as (-> & -> & -> & -> & -> & -> & ->).
    assert (F : fp = NoFraction) by (apply S; reflexivity). subst fp.
    vm_compute. reflexivity.
  - assert (F : fastPath p (Negate p) = false).
    { unfold fastPath. apply andb_false_iff. right. apply Z.eqb_neq.
      intros E. apply (Sign_Negate_differs p V Z0). symmetry. exact E. }
    rewrite F. unfold nonTrivialAdd.
    destruct V as (R & _ & _).
    destruct (centi_Negate p R) as (-> & -> & ->).
    unfold add64. rewrite !Z.add_opp_diag_r.
    change (int64 0) with 0. cbn [Z.geb Z.compare andb].
    rewrite p64Of_zero, toPeriod_zero. reflexivity.
Qed.

Lemma Add_Negate_is_zero_witness :
  validPeriod mixedPeriod /\
  Add Sample.String64 Sample.monthCollapse mixedPeriod (Negate mixedPeriod)
    = zeroPeriod.
Proof.
  assert (V : validPeriod mixedPeriod)
    by (apply validPeriod_dec_sound; vm_compute; reflexivity).
  split; [exact V|].
  apply (Add_Negate_is_zero Sample.String64 Sample.monthCollapse
           mixedPeriod V).
Defined.
